(** * research-agent front end: the proxy route and the polling client

    A shallow embedding of
      - [src/frontend/app/api/generate-report/route.ts] (handlers [POST] and [GET]),
      - the [Home] component (state, effects, [handleSubmit],
        [startPollingJobStatus]),
    followed by the properties the specification states about them.

    JavaScript data is modelled as the code sees it at run time: values parsed
    from JSON are untyped ([JSValue]), numbers are binary64 floats (Rocq's
    primitive floats), strings are sequences of UTF-16 code units. *)

From Stdlib Require Import List String Ascii Bool ZArith NArith Arith Lia.
From Stdlib Require Import Floats.
Import ListNotations.

Set Implicit Arguments.
Set Warnings "-register-all,-inexact-float".

(* ===================================================================== *)
(** * JavaScript values                                                   *)
(* ===================================================================== *)

Module JS.

(** A string is its sequence of UTF-16 code units. *)
Definition jsstring := list N.

(** Source literals are ASCII. *)
Definition lit (s : string) : jsstring :=
  map N_of_ascii (list_ascii_of_string s).
Arguments lit : simpl never.

Fixpoint str_eqb (a b : jsstring) : bool :=
  match a, b with
  | [], [] => true
  | x :: a', y :: b' => N.eqb x y && str_eqb a' b'
  | _, _ => false
  end.

(** ECMAScript WhiteSpace and LineTerminator code points, the set that
    [String.prototype.trim] strips. All of them lie in the BMP. *)
Definition is_whitespace (c : N) : bool :=
  existsb (N.eqb c)
    [ 0x09; 0x0A; 0x0B; 0x0C; 0x0D; 0x20; 0xA0; 0x1680;
      0x2000; 0x2001; 0x2002; 0x2003; 0x2004; 0x2005; 0x2006; 0x2007;
      0x2008; 0x2009; 0x200A; 0x2028; 0x2029; 0x202F; 0x205F; 0x3000;
      0xFEFF ]%N.

Fixpoint trimStart (s : jsstring) : jsstring :=
  match s with
  | c :: s' => if is_whitespace c then trimStart s' else s
  | [] => []
  end.

Definition trimEnd (s : jsstring) : jsstring := rev (trimStart (rev s)).

(** [s.trim()] *)
Definition trim (s : jsstring) : jsstring := trimEnd (trimStart s).

(** Values as they come out of [JSON.parse], plus [undefined] (what a
    missing property reads as). An object is its list of own properties. *)
Inductive JSValue : Type :=
| JUndefined
| JNull
| JBool (b : bool)
| JNum (x : float)
| JStr (s : jsstring)
| JArr (elems : list JSValue)
| JObj (props : list (jsstring * JSValue)).

(** What [throw] carries: an [Error] instance (only its [message] is ever
    read) or any other value. *)
Inductive Thrown : Type :=
| ErrorObject (message : jsstring)
| NotAnError (v : JSValue).

(** A computation that completes normally or abruptly (an awaited promise
    that resolves or rejects, an expression that evaluates or throws). *)
Definition Exc (A : Type) : Type := (Thrown + A)%type.

(** [ToBoolean]: the falsy values are [undefined], [null], [false], [+0],
    [-0], [NaN] and the empty string. *)
Definition truthy (v : JSValue) : bool :=
  match v with
  | JUndefined | JNull => false
  | JBool b => b
  | JNum x => negb (PrimFloat.is_zero x || PrimFloat.is_nan x)
  | JStr s => match s with [] => false | _ => true end
  | JArr _ | JObj _ => true
  end.

Fixpoint lookup (k : jsstring) (props : list (jsstring * JSValue)) : JSValue :=
  match props with
  | [] => JUndefined
  | (k', v) :: rest => if str_eqb k k' then v else lookup k rest
  end.

(** Reading a property that is not one of the built-in ones ([length],
    indices, methods): on an object its own property or [undefined], on the
    other non-nullish values [undefined]. The handlers only read the names
    [topic], [detail], [server_status], ... The names of an object are
    distinct; [lookup] takes the first match. *)
Definition own_prop (v : JSValue) (k : jsstring) : JSValue :=
  match v with
  | JObj props => lookup k props
  | _ => JUndefined
  end.

(** [v.k]: a [TypeError] on [null] and [undefined] (message as V8 words
    it). *)
Definition member (v : JSValue) (k : jsstring) : Exc JSValue :=
  match v with
  | JUndefined =>
      inl (ErrorObject (lit "Cannot read properties of undefined (reading '"
                          ++ k ++ lit "')"))
  | JNull =>
      inl (ErrorObject (lit "Cannot read properties of null (reading '"
                          ++ k ++ lit "')"))
  | _ => inr (own_prop v k)
  end.

(** [v?.k] *)
Definition opt_member (v : JSValue) (k : jsstring) : JSValue :=
  match v with
  | JUndefined | JNull => JUndefined
  | _ => own_prop v k
  end.

(** [v === "literal"] *)
Definition is_string (v : JSValue) (s : jsstring) : bool :=
  match v with
  | JStr s' => str_eqb s' s
  | _ => false
  end.

(** [a || b] *)
Definition or_else (a b : JSValue) : JSValue := if truthy a then a else b.

(** [error instanceof Error ? error.message : 'An unknown error occurred'] *)
Definition message_of (e : Thrown) : jsstring :=
  match e with
  | ErrorObject m => m
  | NotAnError _ => lit "An unknown error occurred"
  end.

(** What [fetch] resolves to: the status line and what [response.json()]
    will settle to. *)
Record FetchResponse : Type := {
  fstatus : Z;
  fjson : Exc JSValue
}.

(** [response.ok]: a status in the range 200-299. *)
Definition ok (r : FetchResponse) : bool :=
  (200 <=? fstatus r)%Z && (fstatus r <=? 299)%Z.

(** [ToNumber], which the relational operators apply to a non-numeric
    operand. On strings, and on arrays and objects (which convert to a string
    first), it is string parsing: that part is the parameter
    [parse_number]. The conversion is taken to return: an object that
    shadows [toString] and [valueOf] with values that cannot be called, for
    which it throws, is outside the model (the backend sends a number). *)
Definition to_number (parse_number : JSValue -> float) (v : JSValue) : float :=
  match v with
  | JUndefined => PrimFloat.nan
  | JNull => PrimFloat.zero
  | JBool b => if b then PrimFloat.one else PrimFloat.zero
  | JNum x => x
  | JStr _ | JArr _ | JObj _ => parse_number v
  end.

(** Whether [String(v)] is the empty string: the empty string itself, and an
    array whose [join] is empty. *)
Fixpoint to_string_is_empty (v : JSValue) : bool :=
  match v with
  | JStr [] => true
  | JArr [] => true
  | JArr [x] =>
      match x with
      | JUndefined | JNull => true
      | _ => to_string_is_empty x
      end
  | _ => false
  end.

End JS.

Import JS.

(* ===================================================================== *)
(** * The proxy route ([route.ts])                                        *)
(* ===================================================================== *)

Module Route.

(** [process.env]: each variable is a string or [undefined]. *)
Record Env : Type := {
  API_KEY : option jsstring;
  NEXT_PUBLIC_BACKEND_URL : option jsstring
}.

(** A variable inside a template literal. *)
Definition interpolate (o : option jsstring) : jsstring :=
  match o with
  | Some s => s
  | None => lit "undefined"
  end.

(** An outbound [fetch(url, init)]. [fbody] is the value whose
    [JSON.stringify] is sent. *)
Record FetchRequest : Type := {
  furl : jsstring;
  fmethod : jsstring;
  fheaders : list (jsstring * jsstring);
  fbody : option JSValue
}.

(** The network: the outcome of the k-th outbound call of a handler run,
    given the request made. *)
Definition Net : Type := nat -> FetchRequest -> Exc FetchResponse.

(** The incoming request: what [req.json()] settles to and what
    [new URL(req.url).searchParams.get('jobId')] returns ([null] as
    [None]). *)
Record NextRequest : Type := {
  req_json : Exc JSValue;
  req_jobId : option jsstring
}.

(** [NextResponse.json(data, { status })]; [rbody] is the value handed to
    it. *)
Record NextResponse : Type := {
  rstatus : Z;
  rbody : JSValue
}.

Definition json (data : JSValue) (status : Z) : NextResponse :=
  {| rstatus := status; rbody := data |}.

(** The statuses for which a response may not carry a body. (101 and 103
    are the other two; they are out of range anyway.) *)
Definition null_body_status (status : Z) : bool :=
  (status =? 204)%Z || (status =? 205)%Z || (status =? 304)%Z.

(** The statuses [NextResponse.json] builds a response for: in the range
    200-599 and not a null body status. *)
Definition accepts_body (status : Z) : bool :=
  (200 <=? status)%Z && (status <=? 599)%Z && negb (null_body_status status).

(** [NextResponse.json(data, { status })] with a status that is not a
    constant of the handler. The [Response] constructor behind it throws a
    [RangeError] for a status outside 200-599 and, a JSON body being there,
    a [TypeError] for a null body status (messages as undici words them; 34
    is the double quote). With one of the handler's own constants (400, 429,
    503, 500, the default 200) it cannot throw and is written [json]. *)
Definition NextResponse_json (data : JSValue) (status : Z) : Exc NextResponse :=
  if accepts_body status then inr (json data status)
  else if (200 <=? status)%Z && (status <=? 599)%Z then
    inl (ErrorObject
           (lit "Response constructor: Invalid response status code "
              ++ lit (if (status =? 204)%Z then "204"
                      else if (status =? 205)%Z then "205" else "304")))
  else
    inl (ErrorObject
           (lit "init[" ++ [34%N] ++ lit "status" ++ [34%N]
              ++ lit "] must be in the range of 200 to 599, inclusive.")).

(** ** Handler monad: exceptions over the log of outbound calls *)

Definition M (A : Type) : Type :=
  list FetchRequest -> Exc A * list FetchRequest.

Definition ret {A} (a : A) : M A := fun log => (inr a, log).

Definition bind {A B} (m : M A) (k : A -> M B) : M B :=
  fun log =>
    match m log with
    | (inl e, log') => (inl e, log')
    | (inr a, log') => k a log'
    end.

(** [await p] for a promise (or an expression) that may reject (throw). *)
Definition await {A} (p : Exc A) : M A := fun log => (p, log).

Definition fetch (net : Net) (r : FetchRequest) : M FetchResponse :=
  fun log => (net (List.length log) r, log ++ [r]).

(** [try { body } catch (error) { handler }] where the handler cannot
    throw. *)
Definition try_catch {A} (body : M A) (handler : Thrown -> A)
  : list FetchRequest -> A * list FetchRequest :=
  fun log =>
    match body log with
    | (inl e, log') => (handler e, log')
    | (inr a, log') => (a, log')
    end.

Declare Scope route_scope.
Delimit Scope route_scope with route.
Notation "x <- m ;; k" := (bind m (fun x => k))
  (at level 61, m at next level, right associativity) : route_scope.
Local Open Scope route_scope.

(** ** Shared pieces *)

(** [const headers = {'Content-Type': 'application/json'};
     if (process.env.API_KEY) headers['X-API-Key'] = process.env.API_KEY;] *)
Definition make_headers (env : Env) : list (jsstring * jsstring) :=
  (lit "Content-Type", lit "application/json")
    :: match API_KEY env with
       | Some k => match k with
                   | [] => []
                   | _ => [(lit "X-API-Key", k)]
                   end
       | None => []
       end.

Definition health_request (env : Env) : FetchRequest :=
  {| furl := interpolate (NEXT_PUBLIC_BACKEND_URL env) ++ lit "/health";
     fmethod := lit "GET";
     fheaders := make_headers env;
     fbody := None |}.

Definition generate_request (env : Env) (body : JSValue) : FetchRequest :=
  {| furl := interpolate (NEXT_PUBLIC_BACKEND_URL env) ++ lit "/generate-report";
     fmethod := lit "POST";
     fheaders := make_headers env;
     fbody := Some body |}.

Definition job_status_request (env : Env) (jobId : jsstring) : FetchRequest :=
  {| furl := interpolate (NEXT_PUBLIC_BACKEND_URL env)
             ++ lit "/job-status/" ++ jobId;
     fmethod := lit "GET";
     fheaders := make_headers env;
     fbody := None |}.

(** The catch clause of both handlers. *)
Definition internal_error (error : Thrown) : NextResponse :=
  json (JObj [(lit "detail", JStr (message_of error))]) 500.

(** ** [POST] *)

(** Lines 65-82, "Start the report generation job": the request body is
    forwarded as it came. *)
Definition start_job (env : Env) (net : Net) (body : JSValue) : M NextResponse :=
  response <- fetch net (generate_request env body) ;;
  if negb (ok response) then
    errorData <- await (fjson response) ;;
    detail <- await (member errorData (lit "detail")) ;;
    await (NextResponse_json
             (JObj [(lit "detail",
                     or_else detail (JStr (lit "Failed to start report generation")))])
             (fstatus response))
  else
  jobData <- await (fjson response) ;;
  ret (json jobData 200).

(** The [try] block of [POST]. *)
Definition POST_try (env : Env) (net : Net) (req : NextRequest) : M NextResponse :=
  body <- await (req_json req) ;;
  if negb (truthy (opt_member body (lit "topic"))) then
    ret (json (JObj [(lit "detail", JStr (lit "Topic is required"))]) 400)
  else
  healthResponse <- fetch net (health_request env) ;;
  if negb (ok healthResponse) then
    ret (json (JObj [(lit "detail", JStr (lit "Backend service unavailable"));
                     (lit "serverStatus", JStr (lit "unavailable"))]) 503)
  else
  healthData <- await (fjson healthResponse) ;;
  server_status <- await (member healthData (lit "server_status")) ;;
  if is_string server_status (lit "busy") then
    current_load <- await (member healthData (lit "current_load")) ;;
    max_capacity <- await (member healthData (lit "max_capacity")) ;;
    ret (json (JObj [(lit "detail",
                      JStr (lit "Server is currently at maximum capacity. Please try again later."));
                     (lit "serverStatus", JStr (lit "busy"));
                     (lit "currentLoad", current_load);
                     (lit "maxCapacity", max_capacity)]) 429)
  else
  is_warming_up <- await (member healthData (lit "is_warming_up")) ;;
  if truthy is_warming_up then
    ret (json (JObj [(lit "detail",
                      JStr (lit "Server is currently warming up. Please try again in 30 seconds."));
                     (lit "serverStatus", JStr (lit "warming"))]) 503)
  else
  start_job env net body.

Definition POST (env : Env) (net : Net) (req : NextRequest)
  : NextResponse * list FetchRequest :=
  try_catch (POST_try env net req) internal_error [].

(** ** [GET] *)

Definition GET_try (env : Env) (net : Net) (req : NextRequest) : M NextResponse :=
  match req_jobId req with
  | None | Some [] =>
      ret (json (JObj [(lit "detail", JStr (lit "Job ID is required"))]) 400)
  | Some jobId =>
      response <- fetch net (job_status_request env jobId) ;;
      if negb (ok response) then
        errorData <- await (fjson response) ;;
        detail <- await (member errorData (lit "detail")) ;;
        await (NextResponse_json
                 (JObj [(lit "detail",
                         or_else detail (JStr (lit "Failed to get job status")))])
                 (fstatus response))
      else
      jobStatus <- await (fjson response) ;;
      ret (json jobStatus 200)
  end.

Definition GET (env : Env) (net : Net) (req : NextRequest)
  : NextResponse * list FetchRequest :=
  try_catch (GET_try env net req) internal_error [].

End Route.

(* ===================================================================== *)
(** * The client component ([Home])                                       *)
(* ===================================================================== *)

Module Page.

(** ** State *)

(** What the [error] state can hold. The declared type is [string | null],
    but payload fields are stored unchecked, and two strings are built by the
    language (a template literal, the message of [new Error(v)]): those are
    kept symbolic. *)
Inductive ErrorVal : Type :=
| ENull
| EValue (v : JSValue)
| EBusyMessage (currentLoad maxCapacity : JSValue)
| EStringOf (v : JSValue).

(** [ToBoolean] of it. The template always has text around its holes. *)
Definition error_truthy (e : ErrorVal) : bool :=
  match e with
  | ENull => false
  | EValue v => truthy v
  | EBusyMessage _ _ => true
  | EStringOf v => negb (to_string_is_empty v)
  end.

(** [new Error(v).message] *)
Definition error_message (v : JSValue) : ErrorVal :=
  match v with
  | JUndefined => EValue (JStr [])
  | JStr s => EValue (JStr s)
  | _ => EStringOf v
  end.

(** The [useState] cells of [Home]. *)
Record State : Type := {
  status : jsstring;
  topic : jsstring;
  isLoading : bool;
  error : ErrorVal;
  report : JSValue;
  currentStage : nat;
  processingTime : nat;
  jobId : JSValue;
  serverStatus : JSValue
}.

Definition initial_state : State :=
  {| status := lit "Checking...";
     topic := [];
     isLoading := false;
     error := ENull;
     report := JNull;
     currentStage := 0;
     processingTime := 0;
     jobId := JNull;
     serverStatus := JNull |}.

Definition with_status v (s : State) : State :=
  {| status := v; topic := topic s; isLoading := isLoading s; error := error s;
     report := report s; currentStage := currentStage s;
     processingTime := processingTime s; jobId := jobId s;
     serverStatus := serverStatus s |}.

Definition with_topic v (s : State) : State :=
  {| status := status s; topic := v; isLoading := isLoading s; error := error s;
     report := report s; currentStage := currentStage s;
     processingTime := processingTime s; jobId := jobId s;
     serverStatus := serverStatus s |}.

Definition with_isLoading v (s : State) : State :=
  {| status := status s; topic := topic s; isLoading := v; error := error s;
     report := report s; currentStage := currentStage s;
     processingTime := processingTime s; jobId := jobId s;
     serverStatus := serverStatus s |}.

Definition with_error v (s : State) : State :=
  {| status := status s; topic := topic s; isLoading := isLoading s; error := v;
     report := report s; currentStage := currentStage s;
     processingTime := processingTime s; jobId := jobId s;
     serverStatus := serverStatus s |}.

Definition with_report v (s : State) : State :=
  {| status := status s; topic := topic s; isLoading := isLoading s; error := error s;
     report := v; currentStage := currentStage s;
     processingTime := processingTime s; jobId := jobId s;
     serverStatus := serverStatus s |}.

Definition with_currentStage (f : nat -> nat) (s : State) : State :=
  {| status := status s; topic := topic s; isLoading := isLoading s; error := error s;
     report := report s; currentStage := f (currentStage s);
     processingTime := processingTime s; jobId := jobId s;
     serverStatus := serverStatus s |}.

Definition with_processingTime (f : nat -> nat) (s : State) : State :=
  {| status := status s; topic := topic s; isLoading := isLoading s; error := error s;
     report := report s; currentStage := currentStage s;
     processingTime := f (processingTime s); jobId := jobId s;
     serverStatus := serverStatus s |}.

Definition with_jobId v (s : State) : State :=
  {| status := status s; topic := topic s; isLoading := isLoading s; error := error s;
     report := report s; currentStage := currentStage s;
     processingTime := processingTime s; jobId := v;
     serverStatus := serverStatus s |}.

Definition with_serverStatus v (s : State) : State :=
  {| status := status s; topic := topic s; isLoading := isLoading s; error := error s;
     report := report s; currentStage := currentStage s;
     processingTime := processingTime s; jobId := jobId s;
     serverStatus := v |}.

(** ** The component instance and its surroundings *)

(** A network call made by the component. *)
Inductive Request : Type :=
| HealthCheck                        (* fetch(`http://localhost:8000/health`) *)
| SubmitReport (topic : jsstring)    (* POST /api/generate-report, body {topic} *)
| GetStatus (jobId : JSValue).       (* GET /api/generate-report?jobId=${jobId},
                                        the id converting to a string as
                                        a string, number, ... does *)

(** The mounted (or torn down) component together with what the browser
    holds for it: its timers and the requests that have not settled. *)
Record Client : Type := {
  state : State;
  mounted : bool;
  (** the 1 s interval of the first effect, with the [processingTime] and
      [currentStage] its callback closed over *)
  ticker : option (nat * nat);
  (** the live 3 s intervals made by [startPollingJobStatus]: interval id
      and the [jobId] its callback closed over *)
  pollers : list (nat * JSValue);
  next_interval : nat;
  (** [handleSubmit] activations suspended at [await fetch(...)] *)
  pending_submits : list jsstring;
  (** poll callbacks suspended at [await fetch(...)], with their
      [pollInterval] *)
  pending_polls : list (nat * JSValue);
  (** [fetchServerStatus] suspended at its [await fetch(...)] *)
  pending_health : bool;
  (** every network call made so far, oldest first *)
  sent : list Request
}.

Definition with_state (f : State -> State) (c : Client) : Client :=
  {| state := f (state c); mounted := mounted c; ticker := ticker c;
     pollers := pollers c; next_interval := next_interval c;
     pending_submits := pending_submits c; pending_polls := pending_polls c;
     pending_health := pending_health c; sent := sent c |}.

Definition with_mounted v (c : Client) : Client :=
  {| state := state c; mounted := v; ticker := ticker c;
     pollers := pollers c; next_interval := next_interval c;
     pending_submits := pending_submits c; pending_polls := pending_polls c;
     pending_health := pending_health c; sent := sent c |}.

Definition with_ticker v (c : Client) : Client :=
  {| state := state c; mounted := mounted c; ticker := v;
     pollers := pollers c; next_interval := next_interval c;
     pending_submits := pending_submits c; pending_polls := pending_polls c;
     pending_health := pending_health c; sent := sent c |}.

Definition with_pollers v n (c : Client) : Client :=
  {| state := state c; mounted := mounted c; ticker := ticker c;
     pollers := v; next_interval := n;
     pending_submits := pending_submits c; pending_polls := pending_polls c;
     pending_health := pending_health c; sent := sent c |}.

Definition with_pending_submits v (c : Client) : Client :=
  {| state := state c; mounted := mounted c; ticker := ticker c;
     pollers := pollers c; next_interval := next_interval c;
     pending_submits := v; pending_polls := pending_polls c;
     pending_health := pending_health c; sent := sent c |}.

Definition with_pending_polls v (c : Client) : Client :=
  {| state := state c; mounted := mounted c; ticker := ticker c;
     pollers := pollers c; next_interval := next_interval c;
     pending_submits := pending_submits c; pending_polls := v;
     pending_health := pending_health c; sent := sent c |}.

Definition with_pending_health v (c : Client) : Client :=
  {| state := state c; mounted := mounted c; ticker := ticker c;
     pollers := pollers c; next_interval := next_interval c;
     pending_submits := pending_submits c; pending_polls := pending_polls c;
     pending_health := v; sent := sent c |}.

Definition with_sent v (c : Client) : Client :=
  {| state := state c; mounted := mounted c; ticker := ticker c;
     pollers := pollers c; next_interval := next_interval c;
     pending_submits := pending_submits c; pending_polls := pending_polls c;
     pending_health := pending_health c; sent := v |}.

(** ** Callback monad: state, and exceptions that carry the message a
    [catch] clause would read off them *)

Definition CM (A : Type) : Type := Client -> (ErrorVal + A) * Client.

Definition ret {A} (a : A) : CM A := fun c => (inr a, c).

Definition bind {A B} (m : CM A) (k : A -> CM B) : CM B :=
  fun c =>
    match m c with
    | (inl e, c') => (inl e, c')
    | (inr a, c') => k a c'
    end.

(** [throw new Error(...)] with the given message *)
Definition throw {A} (message : ErrorVal) : CM A := fun c => (inl message, c).

(** [await p], or an expression that may throw: what the runtime throws
    is read by the [catch] clauses through
    [err instanceof Error ? err.message : "An unknown error occurred"]. *)
Definition await {A} (p : Exc A) : CM A :=
  fun c =>
    match p with
    | inl e => (inl (EValue (JStr (message_of e))), c)
    | inr a => (inr a, c)
    end.

(** [try { body } catch (err) { handler }] *)
Definition try_catch (body : CM unit) (handler : ErrorVal -> Client -> Client)
  : Client -> Client :=
  fun c =>
    match body c with
    | (inl e, c') => handler e c'
    | (inr _, c') => c'
    end.

Declare Scope page_scope.
Delimit Scope page_scope with page.
Notation "x <- m ;; k" := (bind m (fun x => k))
  (at level 61, m at next level, right associativity) : page_scope.
Notation "m ;; k" := (bind m (fun _ => k))
  (at level 61, right associativity) : page_scope.
Local Open Scope page_scope.

(** A state setter: React drops updates to a component that is gone. *)
Definition set (f : State -> State) : Client -> Client :=
  fun c => if mounted c then with_state f c else c.

Definition setState (f : State -> State) : CM unit :=
  fun c => (inr tt, set f c).

Definition setStatus v := setState (with_status v).
Definition setTopic v := setState (with_topic v).
Definition setIsLoading v := setState (with_isLoading v).
Definition setError v := setState (with_error v).
Definition setReport v := setState (with_report v).
Definition setCurrentStage f := setState (with_currentStage f).
Definition setProcessingTime f := setState (with_processingTime f).
Definition setJobId v := setState (with_jobId v).
Definition setServerStatus v := setState (with_serverStatus v).

(** [clearInterval(id)] for a polling interval *)
Definition clearInterval (id : nat) : CM unit :=
  fun c =>
    (inr tt,
     with_pollers (filter (fun p => negb (Nat.eqb (fst p) id)) (pollers c))
                  (next_interval c) c).

(** [thoughtStages.length] *)
Definition thoughtStages_length : nat := 7.

(** The cascade of lines 286-292 on the number [statusData.progress]
    compares as. *)
Definition stage_of_progress (progress : float) : nat :=
  if (progress <=? 0.2)%float then 0
  else if (progress <=? 0.3)%float then 1
  else if (progress <=? 0.5)%float then 2
  else if (progress <=? 0.7)%float then 3
  else if (progress <=? 0.9)%float then 4
  else if (progress <? 1.0)%float then 5
  else 6.

(** The form (the input, with [onChange] and [onSubmit]) is rendered under
    [!isLoading && !report && !error], and only while the component is
    there. *)
Definition form_visible (c : Client) : bool :=
  mounted c
  && negb (isLoading (state c))
  && negb (truthy (report (state c)))
  && negb (error_truthy (error (state c))).

Fixpoint remove_nth {A} (k : nat) (l : list A) : list A :=
  match k, l with
  | _, [] => []
  | 0, _ :: l' => l'
  | S k', x :: l' => x :: remove_nth k' l'
  end.

Fixpoint find_poller (id : nat) (ps : list (nat * JSValue)) : option JSValue :=
  match ps with
  | [] => None
  | (i, j) :: rest => if Nat.eqb i id then Some j else find_poller id rest
  end.

Section Component.

(** String-to-number parsing, see [JS.to_number]. *)
Variable parse_number : JSValue -> float.

(** ** [startPollingJobStatus] *)

(** [setInterval(async () => {...}, 3000)]; the result stands for the
    returned [() => clearInterval(pollInterval)]. *)
Definition startPollingJobStatus (jobId : JSValue) : CM nat :=
  fun c =>
    (inr (next_interval c),
     with_pollers (pollers c ++ [(next_interval c, jobId)])
                  (S (next_interval c)) c).

(** The interval callback up to [await fetch(...)]: the request is made. *)
Definition poll_fire (pollInterval : nat) (jobId : JSValue) (c : Client) : Client :=
  with_pending_polls (pending_polls c ++ [(pollInterval, jobId)])
    (with_sent (sent c ++ [GetStatus jobId]) c).

(** The rest of the callback, once the fetch has settled. The two awaits
    (the response, then its body) are taken in one step; on the non-ok path
    [clearInterval] runs between them, so the model lets the interval fire
    once more than the browser would, and never less. *)
Definition poll_resume (pollInterval : nat) (r : Exc FetchResponse)
  : Client -> Client :=
  try_catch
    (response <- await r ;;
     if negb (ok response) then
       clearInterval pollInterval ;;
       errorData <- await (fjson response) ;;
       detail <- await (member errorData (lit "detail")) ;;
       setError (EValue (or_else detail (JStr (lit "Failed to check job status")))) ;;
       setIsLoading false
     else
       statusData <- await (fjson response) ;;
       setProcessingTime S ;;
       progress <- await (member statusData (lit "progress")) ;;
       setCurrentStage (fun _ => stage_of_progress (to_number parse_number progress)) ;;
       status <- await (member statusData (lit "status")) ;;
       report <- await (member statusData (lit "report")) ;;
       if is_string status (lit "completed") && truthy report then
         clearInterval pollInterval ;;
         setReport report ;;
         setIsLoading false
       else if is_string status (lit "failed") then
         clearInterval pollInterval ;;
         error <- await (member statusData (lit "error")) ;;
         setError (EValue (or_else error (JStr (lit "Failed to generate report")))) ;;
         setIsLoading false
       else ret tt)
    (fun _ c => c).

(** ** [handleSubmit] *)

(** Up to [await fetch("/api/generate-report", ...)]. *)
Definition handleSubmit (c : Client) : Client :=
  match trim (topic (state c)) with
  | [] => c
  | _ =>
      let c' :=
        set (with_serverStatus JNull)
          (set (with_jobId JNull)
             (set (with_currentStage (fun _ => 0))
                (set (with_processingTime (fun _ => 0))
                   (set (with_report JNull)
                      (set (with_error ENull)
                         (set (with_isLoading true) c)))))) in
      with_pending_submits (pending_submits c' ++ [topic (state c)])
        (with_sent (sent c' ++ [SubmitReport (topic (state c))]) c')
  end.

(** The rest of [handleSubmit], once the fetch has settled. *)
Definition handleSubmit_resume (r : Exc FetchResponse) : Client -> Client :=
  try_catch
    (response <- await r ;;
     if negb (ok response) then
       errorData <- await (fjson response) ;;
       serverStatus <- await (member errorData (lit "serverStatus")) ;;
       (if truthy serverStatus then
          setServerStatus serverStatus ;;
          if is_string serverStatus (lit "busy") then
            currentLoad <- await (member errorData (lit "currentLoad")) ;;
            maxCapacity <- await (member errorData (lit "maxCapacity")) ;;
            throw (EBusyMessage currentLoad maxCapacity)
          else if is_string serverStatus (lit "warming") then
            throw (EValue (JStr (lit "Server is warming up. Please try again in 30 seconds.")))
          else if is_string serverStatus (lit "unavailable") then
            throw (EValue (JStr (lit "Research service is currently unavailable. Please try again later.")))
          else ret tt
        else ret tt) ;;
       detail <- await (member errorData (lit "detail")) ;;
       throw (error_message
                (or_else detail (JStr (lit "Failed to start report generation"))))
     else
       jobData <- await (fjson response) ;;
       job_id <- await (member jobData (lit "job_id")) ;;
       setJobId job_id ;;
       status <- await (member jobData (lit "status")) ;;
       report <- await (member jobData (lit "report")) ;;
       if is_string status (lit "completed") && truthy report then
         setReport report ;;
         setIsLoading false
       else
         _cleanup <- startPollingJobStatus job_id ;;
         ret tt)
    (fun message c => set (with_isLoading false) (set (with_error message) c)).

(** ** Effects *)

(** The callback of the 1 s interval, closed over the [processingTime] and
    [currentStage] of the render that installed it. *)
Definition ticker_callback (processingTime currentStage : nat) (c : Client) : Client :=
  let c' := set (with_processingTime S) c in
  if (0 <? processingTime)%nat
     && (processingTime mod 12 =? 0)%nat
     && (currentStage <? thoughtStages_length - 1)%nat
  then set (with_currentStage S) c'
  else c'.

(** The first effect, deps [isLoading, processingTime, currentStage]: its
    cleanup clears the interval, its body installs a fresh one while loading
    and resets the counters otherwise. *)
Definition ticker_effect (c : Client) : Client :=
  if isLoading (state c) then
    with_ticker (Some (processingTime (state c), currentStage (state c))) c
  else
    with_ticker None
      (set (with_processingTime (fun _ => 0))
         (set (with_currentStage (fun _ => 0)) c)).

(** The last effect, deps [isLoading, jobId]. *)
Definition jobId_effect (c : Client) : Client :=
  if negb (isLoading (state c)) && truthy (jobId (state c))
  then set (with_jobId JNull) c
  else c.

(** Render and run the effects after a callback has returned. Running
    them again changes nothing, so one pass is the fixed point React
    reaches. *)
Definition commit (c : Client) : Client :=
  if mounted c then jobId_effect (ticker_effect c) else c.

(** The mount effect [fetchServerStatus], once its fetch has settled. *)
Definition fetchServerStatus_resume (r : Exc FetchResponse) : Client -> Client :=
  try_catch
    (res <- await r ;;
     data <- await (fjson res) ;;
     status <- await (member data (lit "status")) ;;
     setServerStatus (or_else status (JStr (lit "OK"))))
    (fun _ c => set (with_status (lit "Server is unavailable")) c).

(** Teardown: the cleanup of the first effect is the only one there is. *)
Definition unmount (c : Client) : Client :=
  with_mounted false (with_ticker None c).

(** ** The component as a transition system *)

(** What can happen to the component. [Change] and [Submit] come from
    [PlaceholdersAndVanishInput], a component outside this source tree: it
    is taken to call [onChange] and [onSubmit] when the user types in or
    submits the form it renders, and at no other time. The rest are timers
    firing, requests settling, and teardown. *)
Inductive Event : Type :=
| Change (value : jsstring)                        (* typing in the input *)
| Submit                                           (* submitting the form *)
| SubmitSettled (k : nat) (r : Exc FetchResponse)  (* a pending POST settles *)
| Tick                                             (* the 1 s interval fires *)
| PollFire (id : nat)                              (* a 3 s interval fires *)
| PollSettled (k : nat) (r : Exc FetchResponse)    (* a pending GET settles *)
| HealthSettled (r : Exc FetchResponse)            (* the mount fetch settles *)
| Unmount.

(** After mounting: the effects have run once, the health fetch is out. *)
Definition init : Client :=
  {| state := initial_state;
     mounted := true;
     ticker := None;
     pollers := [];
     next_interval := 0;
     pending_submits := [];
     pending_polls := [];
     pending_health := true;
     sent := [HealthCheck] |}.

(** One event, when the browser can deliver it. *)
Definition step (c : Client) (e : Event) : option Client :=
  match e with
  | Change value =>
      if form_visible c then Some (commit (set (with_topic value) c)) else None
  | Submit =>
      if form_visible c then Some (commit (handleSubmit c)) else None
  | SubmitSettled k r =>
      match nth_error (pending_submits c) k with
      | Some _ =>
          Some (commit (handleSubmit_resume r
                          (with_pending_submits (remove_nth k (pending_submits c)) c)))
      | None => None
      end
  | Tick =>
      match ticker c with
      | Some (pt, cs) => Some (commit (ticker_callback pt cs c))
      | None => None
      end
  | PollFire id =>
      match find_poller id (pollers c) with
      | Some jobId => Some (commit (poll_fire id jobId c))
      | None => None
      end
  | PollSettled k r =>
      match nth_error (pending_polls c) k with
      | Some (id, _) =>
          Some (commit (poll_resume id r
                          (with_pending_polls (remove_nth k (pending_polls c)) c)))
      | None => None
      end
  | HealthSettled r =>
      if pending_health c
      then Some (commit (fetchServerStatus_resume r (with_pending_health false c)))
      else None
  | Unmount =>
      if mounted c then Some (unmount c) else None
  end.

(** Running a list of events; [None] when one of them cannot happen. *)
Fixpoint run (c : Client) (es : list Event) : option Client :=
  match es with
  | [] => Some c
  | e :: es' =>
      match step c e with
      | Some c' => run c' es'
      | None => None
      end
  end.

Inductive reachable : Client -> Prop :=
| reachable_init : reachable init
| reachable_step c e c' : reachable c -> step c e = Some c' -> reachable c'.

End Component.

End Page.

(* ===================================================================== *)
(** * Reading properties                                                  *)
(* ===================================================================== *)

Module JSFacts.

(** A payload with a readable property is not [null] or [undefined]. *)
Lemma member_of_truthy_prop v k :
  truthy (own_prop v k) = true -> member v k = inr (own_prop v k).
Proof.
  destruct v; cbn; intros H; try discriminate; reflexivity.
Qed.

Lemma member_same_payload v k k' x :
  member v k = inr x -> member v k' = inr (own_prop v k').
Proof.
  destruct v; cbn; intros H; try discriminate; reflexivity.
Qed.

End JSFacts.

(* ===================================================================== *)
(** * Properties of the proxy route                                       *)
(* ===================================================================== *)

Module RouteFacts.
Import Route JSFacts.

(** Unfolding one handler run down to the outcomes of its awaits. *)
Ltac run_handler :=
  unfold POST, GET, try_catch, POST_try, GET_try, start_job, bind, await, fetch, ret;
  cbn [List.length app].

(** The two bodies [POST] answers the capacity gate with. *)
Definition busy_body (current_load max_capacity : JSValue) : JSValue :=
  JObj [(lit "detail",
         JStr (lit "Server is currently at maximum capacity. Please try again later."));
        (lit "serverStatus", JStr (lit "busy"));
        (lit "currentLoad", current_load);
        (lit "maxCapacity", max_capacity)].

Definition warming_body : JSValue :=
  JObj [(lit "detail",
         JStr (lit "Server is currently warming up. Please try again in 30 seconds."));
        (lit "serverStatus", JStr (lit "warming"))].

Definition unavailable_body : JSValue :=
  JObj [(lit "detail", JStr (lit "Backend service unavailable"));
        (lit "serverStatus", JStr (lit "unavailable"))].

(** Sample surroundings for the concrete runs below. *)
Definition sample_env : Env :=
  {| API_KEY := None; NEXT_PUBLIC_BACKEND_URL := Some (lit "http://backend:8000") |}.

Definition sample_request : NextRequest :=
  {| req_json := inr (JObj [(lit "topic", JStr (lit "solar sails"))]);
     req_jobId := None |}.

Definition busy_and_warming : JSValue :=
  JObj [(lit "status", JStr (lit "ok"));
        (lit "server_status", JStr (lit "busy"));
        (lit "current_load", JNum 5);
        (lit "max_capacity", JNum 5);
        (lit "is_warming_up", JBool true)].

Definition warming_only : JSValue :=
  JObj [(lit "status", JStr (lit "ok"));
        (lit "server_status", JStr (lit "warming"));
        (lit "is_warming_up", JBool true)].

(** A backend whose health check answers 200 with the given payload. *)
Definition health_says (payload : JSValue) : Net :=
  fun _ _ => inr {| fstatus := 200; fjson := inr payload |}.

(** C1, as stated, fails: a health payload with [is_warming_up: true] and
    [server_status: "busy"] is answered 429 with [serverStatus: "busy"], not
    503 "warming". *)
Lemma C1_busy_is_checked_before_warming :
  own_prop busy_and_warming (lit "is_warming_up") = JBool true
  /\ POST sample_env (health_says busy_and_warming) sample_request
     = (json (busy_body (JNum 5) (JNum 5)) 429, [health_request sample_env])
  /\ rstatus (fst (POST sample_env (health_says busy_and_warming) sample_request))
     <> 503%Z.
Proof.
  split; [reflexivity|]. split; [reflexivity|].
  cbn. discriminate.
Qed.

(** C1, amended: for a POST whose body carries a topic and whose health check
    answers with a success status and a payload with a truthy
    [is_warming_up], the answer is 503 with [serverStatus: "warming"] whenever
    [server_status] is not ["busy"], and nothing is forwarded; when
    [server_status] is ["busy"] the busy check, which runs first, answers 429
    with [serverStatus: "busy"]. *)
Theorem C1_warming_unless_busy env net req body healthResponse healthData :
  req_json req = inr body ->
  truthy (opt_member body (lit "topic")) = true ->
  net 0 (health_request env) = inr healthResponse ->
  ok healthResponse = true ->
  fjson healthResponse = inr healthData ->
  truthy (own_prop healthData (lit "is_warming_up")) = true ->
  POST env net req =
    if is_string (own_prop healthData (lit "server_status")) (lit "busy")
    then (json (busy_body (own_prop healthData (lit "current_load"))
                          (own_prop healthData (lit "max_capacity"))) 429,
          [health_request env])
    else (json warming_body 503, [health_request env]).
Proof.
  intros Hbody Htopic Hnet Hok Hjson Hwarm.
  pose proof (@member_of_truthy_prop _ _ Hwarm) as Hm.
  run_handler.
  rewrite Hbody, Htopic. cbn [negb List.length].
  rewrite Hnet, Hok. cbn [negb app]. rewrite Hjson.
  rewrite (@member_same_payload _ _ (lit "server_status") _ Hm).
  destruct (is_string _ _).
  - rewrite (@member_same_payload _ _ (lit "current_load") _ Hm).
    rewrite (@member_same_payload _ _ (lit "max_capacity") _ Hm).
    reflexivity.
  - rewrite Hm, Hwarm. reflexivity.
Qed.

Lemma C1_warming_unless_busy_witness :
  POST sample_env (health_says warming_only) sample_request
  = (json warming_body 503, [health_request sample_env]).
Proof.
  exact (@C1_warming_unless_busy sample_env (health_says warming_only)
           sample_request _ _ warming_only
           eq_refl eq_refl eq_refl eq_refl eq_refl eq_refl).
Defined.

(** A backend whose every call fails at the network level. *)
Definition unreachable : Net :=
  fun _ _ => inl (ErrorObject (lit "fetch failed")).

(** C2, as stated, fails: when the health fetch throws, the answer is the
    catch-all 500 with the error's message and no [serverStatus]. *)
Lemma C2_thrown_health_fetch_is_500 :
  unreachable 0 (health_request sample_env) = inl (ErrorObject (lit "fetch failed"))
  /\ POST sample_env unreachable sample_request
     = (json (JObj [(lit "detail", JStr (lit "fetch failed"))]) 500,
        [health_request sample_env])
  /\ own_prop (rbody (fst (POST sample_env unreachable sample_request)))
       (lit "serverStatus") = JUndefined.
Proof. repeat split. Qed.

(** C2, amended: for a POST whose body carries a topic, a health check that
    returns a non-success status is answered 503 with
    [serverStatus: "unavailable"]; a health fetch that throws is answered by
    the catch-all, 500 with the error's message as [detail]. Either way
    nothing is forwarded. *)
Theorem C2_unavailable_on_non_success env net req body :
  req_json req = inr body ->
  truthy (opt_member body (lit "topic")) = true ->
  (forall healthResponse,
      net 0 (health_request env) = inr healthResponse ->
      ok healthResponse = false ->
      POST env net req = (json unavailable_body 503, [health_request env]))
  /\ (forall e,
      net 0 (health_request env) = inl e ->
      POST env net req
      = (json (JObj [(lit "detail", JStr (message_of e))]) 500,
         [health_request env])).
Proof.
  intros Hbody Htopic. split.
  - intros hr Hnet Hok. run_handler.
    rewrite Hbody, Htopic. cbn [negb List.length].
    rewrite Hnet, Hok. reflexivity.
  - intros e Hnet. run_handler.
    rewrite Hbody, Htopic. cbn [negb List.length].
    rewrite Hnet. reflexivity.
Qed.

(** A backend whose health check answers with the given status and an
    empty payload. *)
Definition health_status (code : Z) : Net :=
  fun _ _ => inr {| fstatus := code; fjson := inr (JObj []) |}.

Lemma C2_unavailable_on_non_success_witness :
  POST sample_env (health_status 502) sample_request
  = (json unavailable_body 503, [health_request sample_env]).
Proof.
  exact (proj1 (@C2_unavailable_on_non_success sample_env (health_status 502)
                  sample_request _ eq_refl eq_refl)
               _ eq_refl eq_refl).
Defined.

(** ** Forwarding *)

(** The request passes validation and the capacity gate: the body carries a
    topic, the health check answers with a success status and a payload that
    is neither busy nor warming up. *)
Definition admitted (env : Env) (net : Net) (req : NextRequest) (body : JSValue) : Prop :=
  req_json req = inr body
  /\ truthy (opt_member body (lit "topic")) = true
  /\ exists healthResponse healthData server_status,
       net 0 (health_request env) = inr healthResponse
       /\ ok healthResponse = true
       /\ fjson healthResponse = inr healthData
       /\ member healthData (lit "server_status") = inr server_status
       /\ is_string server_status (lit "busy") = false
       /\ truthy (own_prop healthData (lit "is_warming_up")) = false.

(** An admitted request goes on to [start_job], with the health call
    logged. *)
Lemma POST_admitted env net req body :
  admitted env net req body ->
  POST env net req
  = try_catch (start_job env net body) internal_error [health_request env].
Proof.
  intros (Hbody & Htopic & hr & hd & ss & Hnet & Hok & Hjson & Hss & Hbusy & Hwarm).
  unfold POST, try_catch, POST_try, bind, await, fetch, ret.
  rewrite Hbody, Htopic. cbn [negb List.length].
  rewrite Hnet, Hok. cbn [negb app]. rewrite Hjson, Hss, Hbusy.
  rewrite (@member_same_payload _ _ (lit "is_warming_up") _ Hss), Hwarm.
  reflexivity.
Qed.

(** A backend that is healthy and answers every later call with the given
    outcome. *)
Definition healthy_then (outcome : Exc FetchResponse) : Net :=
  fun k _ =>
    match k with
    | 0 => inr {| fstatus := 200; fjson := inr (JObj [(lit "status", JStr (lit "ok"))]) |}
    | _ => outcome
    end.

Lemma healthy_then_admits outcome :
  admitted sample_env (healthy_then outcome) sample_request
    (JObj [(lit "topic", JStr (lit "solar sails"))]).
Proof.
  split; [reflexivity|]. split; [reflexivity|].
  eexists _, _, _. repeat split.
Defined.

(** What a backend behind a gateway answers when it is down: a 502 whose
    body is an HTML page, so [response.json()] rejects. *)
Definition bad_gateway : FetchResponse :=
  {| fstatus := 502;
     fjson := inl (ErrorObject (lit "Unexpected token '<', is not valid JSON")) |}.

(** A backend failure whose [detail] is there, and empty. *)
Definition empty_detail : FetchResponse :=
  {| fstatus := 422; fjson := inr (JObj [(lit "detail", JStr [])]) |}.

Definition status_request : NextRequest :=
  {| req_json := inl (ErrorObject (lit "Unexpected end of JSON input"));
     req_jobId := Some (lit "job-1") |}.

(** A backend failure with a status no response can be built for. *)
Definition odd_status : FetchResponse :=
  {| fstatus := 600;
     fjson := inr (JObj [(lit "detail", JStr (lit "upstream exploded"))]) |}.

(** C7, as stated, fails: a backend failure whose body is not JSON is
    answered 500 with the parser's message, not with the backend's status;
    a backend [detail] that is present but falsy (here the empty string)
    is replaced by the generic message; and a backend status that
    [NextResponse.json] refuses (here 600) is answered 500. *)
Lemma C7_backend_failure_not_always_propagated :
  ok bad_gateway = false
  /\ POST sample_env (healthy_then (inr bad_gateway)) sample_request
     = (json (JObj [(lit "detail",
                     JStr (lit "Unexpected token '<', is not valid JSON"))]) 500,
        [health_request sample_env;
         generate_request sample_env (JObj [(lit "topic", JStr (lit "solar sails"))])])
  /\ GET sample_env (fun _ _ => inr bad_gateway) status_request
     = (json (JObj [(lit "detail",
                     JStr (lit "Unexpected token '<', is not valid JSON"))]) 500,
        [job_status_request sample_env (lit "job-1")])
  /\ ok empty_detail = false
  /\ GET sample_env (fun _ _ => inr empty_detail) status_request
     = (json (JObj [(lit "detail", JStr (lit "Failed to get job status"))]) 422,
        [job_status_request sample_env (lit "job-1")])
  /\ ok odd_status = false
  /\ rstatus (fst (GET sample_env (fun _ _ => inr odd_status) status_request))
     = 500%Z
  /\ rstatus (fst (POST sample_env (healthy_then (inr odd_status)) sample_request))
     = 500%Z.
Proof. repeat split. Qed.

(** What a handler answers, with the given generic message and outbound
    calls, to a backend failure [response]: the backend's status and [detail]
    when the body can be read and a response can be built for the status, and
    the catch-all 500 otherwise. *)
Definition failure_outcome (generic : jsstring) (response : FetchResponse)
    (log : list FetchRequest) (answer : NextResponse * list FetchRequest) : Prop :=
  (forall errorData detail,
      fjson response = inr errorData ->
      member errorData (lit "detail") = inr detail ->
      accepts_body (fstatus response) = true ->
      answer = (json (JObj [(lit "detail",
                             if truthy detail then detail else JStr generic)])
                     (fstatus response),
                log))
  /\ (forall e,
      fjson response = inl e ->
      answer = (json (JObj [(lit "detail", JStr (message_of e))]) 500, log))
  /\ (forall errorData e,
      fjson response = inr errorData ->
      member errorData (lit "detail") = inl e ->
      answer = (json (JObj [(lit "detail", JStr (message_of e))]) 500, log))
  /\ (forall errorData detail,
      fjson response = inr errorData ->
      member errorData (lit "detail") = inr detail ->
      accepts_body (fstatus response) = false ->
      exists message,
        answer = (json (JObj [(lit "detail", JStr message)]) 500, log)).

(** The non-ok branch both handlers share, once the call has been made. *)
Lemma failure_branch generic response log :
  failure_outcome generic response log
    (try_catch
       (errorData <- await (fjson response) ;;
        detail <- await (member errorData (lit "detail")) ;;
        await (NextResponse_json
                 (JObj [(lit "detail", or_else detail (JStr generic))])
                 (fstatus response)))%route
       internal_error log).
Proof.
  unfold failure_outcome, try_catch, bind, await, NextResponse_json, or_else.
  repeat split.
  - intros errorData detail Hjson Hdetail Hacc.
    rewrite Hjson, Hdetail, Hacc. reflexivity.
  - intros e Hjson. rewrite Hjson. reflexivity.
  - intros errorData e Hjson Hdetail. rewrite Hjson, Hdetail. reflexivity.
  - intros errorData detail Hjson Hdetail Hacc.
    rewrite Hjson, Hdetail, Hacc.
    destruct ((200 <=? fstatus response)%Z && (fstatus response <=? 599)%Z);
      eexists; reflexivity.
Qed.

(** C7, amended: when the backend answers the forwarded job-creation or
    job-status request with a non-success status, the proxy answers with the
    backend's status code unchanged and a body [{detail}] holding the
    backend's [detail] verbatim when that is truthy, and the handler's
    generic message when [detail] is absent or falsy, provided the body
    parses as JSON and is not [null] and the status is one
    [NextResponse.json] builds a response for (200-599, not 204, 205 or
    304). In every other case the catch-all answers 500 with the thrown
    error's message as [detail]: the parser's when the body does not parse,
    the [TypeError]'s when the body is [null], the constructor's when the
    status is refused. *)
Theorem C7_backend_failure_propagated env net req response :
  ok response = false ->
  (forall body,
      admitted env net req body ->
      net 1 (generate_request env body) = inr response ->
      failure_outcome (lit "Failed to start report generation") response
        [health_request env; generate_request env body]
        (POST env net req))
  /\ (forall jobId,
      req_jobId req = Some jobId ->
      jobId <> [] ->
      net 0 (job_status_request env jobId) = inr response ->
      failure_outcome (lit "Failed to get job status") response
        [job_status_request env jobId]
        (GET env net req)).
Proof.
  intros Hok. split.
  - intros body Hadm Hnet.
    rewrite (POST_admitted Hadm).
    pose proof (failure_branch (lit "Failed to start report generation") response
                  [health_request env; generate_request env body]) as H.
    unfold try_catch, start_job, bind, await, fetch, ret in *.
    cbn [List.length app]. rewrite Hnet, Hok. cbn [negb]. exact H.
  - intros jobId Hid Hne Hnet.
    pose proof (failure_branch (lit "Failed to get job status") response
                  [job_status_request env jobId]) as H.
    unfold GET, GET_try, try_catch, bind, await, fetch, ret in *.
    rewrite Hid. destruct jobId as [|c jobId]; [congruence|].
    cbn [List.length app]. rewrite Hnet, Hok. cbn [negb]. exact H.
Qed.

Definition not_found : FetchResponse :=
  {| fstatus := 404;
     fjson := inr (JObj [(lit "detail", JStr (lit "Job not found"))]) |}.

Lemma C7_backend_failure_propagated_witness :
  GET sample_env (fun _ _ => inr not_found) status_request
  = (json (JObj [(lit "detail", JStr (lit "Job not found"))]) 404,
     [job_status_request sample_env (lit "job-1")]).
Proof.
  refine (proj1 (proj2 (@C7_backend_failure_propagated sample_env
                          (fun _ _ => inr not_found) status_request not_found
                          eq_refl)
                       (lit "job-1") eq_refl _ eq_refl)
                _ _ eq_refl eq_refl eq_refl).
  discriminate.
Defined.

(** C10: neither handler lets an exception out. Whatever is thrown inside
    the [try] block ends in a 500 whose body is [{detail: message}]; this
    covers a POST body that is not valid JSON (500, not the 400 kept for a
    missing topic), a fetch that throws, and a backend failure whose body
    cannot be parsed. *)
Theorem C10_handlers_answer_500_on_exceptions env net req :
  (forall e log,
      POST_try env net req [] = (inl e, log) ->
      POST env net req = (json (JObj [(lit "detail", JStr (message_of e))]) 500, log))
  /\ (forall e log,
      GET_try env net req [] = (inl e, log) ->
      GET env net req = (json (JObj [(lit "detail", JStr (message_of e))]) 500, log))
  /\ (forall e,
      req_json req = inl e ->
      POST env net req = (json (JObj [(lit "detail", JStr (message_of e))]) 500, []))
  /\ (forall body e,
      req_json req = inr body ->
      truthy (opt_member body (lit "topic")) = true ->
      net 0 (health_request env) = inl e ->
      POST env net req
      = (json (JObj [(lit "detail", JStr (message_of e))]) 500, [health_request env]))
  /\ (forall body e,
      admitted env net req body ->
      net 1 (generate_request env body) = inl e
      \/ (exists response,
             net 1 (generate_request env body) = inr response
             /\ ok response = false /\ fjson response = inl e) ->
      POST env net req
      = (json (JObj [(lit "detail", JStr (message_of e))]) 500,
         [health_request env; generate_request env body]))
  /\ (forall jobId e,
      req_jobId req = Some jobId ->
      jobId <> [] ->
      net 0 (job_status_request env jobId) = inl e
      \/ (exists response,
             net 0 (job_status_request env jobId) = inr response
             /\ ok response = false /\ fjson response = inl e) ->
      GET env net req
      = (json (JObj [(lit "detail", JStr (message_of e))]) 500,
         [job_status_request env jobId])).
Proof.
  repeat apply conj.
  - intros e log H. unfold POST, try_catch. now rewrite H.
  - intros e log H. unfold GET, try_catch. now rewrite H.
  - intros e H. run_handler. now rewrite H.
  - intros body e Hbody Htopic Hnet. run_handler.
    rewrite Hbody, Htopic. cbn [negb List.length]. now rewrite Hnet.
  - intros body e Hadm H. rewrite (POST_admitted Hadm).
    unfold try_catch, start_job, bind, await, fetch, ret. cbn [List.length].
    destruct H as [Hnet | (response & Hnet & Hok & Hjson)].
    + now rewrite Hnet.
    + rewrite Hnet, Hok. cbn [negb]. now rewrite Hjson.
  - intros jobId e Hid Hne H. run_handler.
    rewrite Hid. destruct jobId as [|c jobId]; [congruence|].
    cbn [List.length].
    destruct H as [Hnet | (response & Hnet & Hok & Hjson)].
    + now rewrite Hnet.
    + rewrite Hnet, Hok. cbn [negb]. now rewrite Hjson.
Qed.

Definition malformed_post : NextRequest :=
  {| req_json := inl (ErrorObject (lit "Unexpected end of JSON input"));
     req_jobId := None |}.

Lemma C10_handlers_answer_500_on_exceptions_witness :
  POST sample_env unreachable malformed_post
  = (json (JObj [(lit "detail", JStr (lit "Unexpected end of JSON input"))]) 500, []).
Proof.
  exact (proj1 (proj2 (proj2
           (@C10_handlers_answer_500_on_exceptions sample_env unreachable malformed_post)))
           _ eq_refl).
Defined.

End RouteFacts.

(* ===================================================================== *)
(** * The order on binary64 numbers                                       *)
(* ===================================================================== *)

(** The comparison operators of the language are the IEEE ones; what is
    needed of them here is that they chain, which the specification of the
    primitive operations gives. *)
Module FloatOrder.


Definition le_result (c : comparison) : bool :=
  match c with Gt => false | _ => true end.

Definition chain (c1 c2 : comparison) : comparison :=
  match c1, c2 with
  | Eq, Eq => Eq
  | _, _ => Lt
  end.

Lemma SFcompare_flip x y :
  SFcompare y x = option_map CompOpp (SFcompare x y).
Proof.
  destruct x as [sx|sx| |sx mx ex], y as [sy|sy| |sy my ey]; cbn;
    try reflexivity;
    try (destruct sx; reflexivity);
    try (destruct sy; reflexivity);
    try (destruct sx, sy; reflexivity).
  destruct sx, sy; cbn; try reflexivity;
    rewrite (Z.compare_antisym ex ey);
    destruct (ex ?= ey)%Z; cbn; try reflexivity;
    change (Pos.compare_cont Eq my mx) with (Pos.compare my mx);
    change (Pos.compare_cont Eq mx my) with (Pos.compare mx my);
    rewrite (Pos.compare_antisym mx my);
    destruct (mx ?= my)%positive; reflexivity.
Qed.

Ltac split_compare :=
  repeat match goal with
         | H : context [(?a ?= ?b)%Z] |- _ => destruct (Z.compare_spec a b)
         | |- context [(?a ?= ?b)%Z] => destruct (Z.compare_spec a b)
         | H : context [(?a ?= ?b)%positive] |- _ => destruct (Pos.compare_spec a b)
         | |- context [(?a ?= ?b)%positive] => destruct (Pos.compare_spec a b)
         end.

Ltac settle_compare :=
  cbn in *; subst;
  repeat match goal with
         | H : Some _ = Some _ |- _ => inversion H; clear H
         end;
  subst; cbn in *;
  first [ discriminate | reflexivity | lia ].

Lemma SFcompare_chain x y z c1 c2 :
  SFcompare x y = Some c1 -> SFcompare y z = Some c2 ->
  le_result c1 = true -> le_result c2 = true ->
  SFcompare x z = Some (chain c1 c2).
Proof.
  destruct x as [sx|sx| |sx mx ex], y as [sy|sy| |sy my ey], z as [sz|sz| |sz mz ez];
    cbn; intros H1 H2 L1 L2;
    try discriminate;
    repeat match goal with
           | s : bool |- _ => destruct s
           end;
    change (Pos.compare_cont Eq) with Pos.compare in *;
    split_compare; settle_compare.
Qed.

Definition compare_floats (x y : float) : option comparison :=
  SFcompare (Prim2SF x) (Prim2SF y).

Lemma leb_by_compare x y :
  (x <=? y)%float
  = match compare_floats x y with Some c => le_result c | None => false end.
Proof.
  rewrite leb_spec. unfold SFleb, compare_floats.
  destruct (SFcompare _ _) as [[]|]; reflexivity.
Qed.

Lemma ltb_by_compare x y :
  (x <? y)%float
  = match compare_floats x y with Some Lt => true | _ => false end.
Proof. rewrite ltb_spec. reflexivity. Qed.

Lemma gtb_by_compare x y :
  (y <? x)%float
  = match compare_floats x y with Some Gt => true | _ => false end.
Proof.
  rewrite ltb_spec. unfold SFltb, compare_floats.
  rewrite (SFcompare_flip (Prim2SF x) (Prim2SF y)).
  destruct (SFcompare _ _) as [[]|]; reflexivity.
Qed.

Lemma geb_by_compare x y :
  (y <=? x)%float
  = match compare_floats x y with Some Lt | None => false | _ => true end.
Proof.
  rewrite leb_spec. unfold SFleb, compare_floats.
  rewrite (SFcompare_flip (Prim2SF x) (Prim2SF y)).
  destruct (SFcompare _ _) as [[]|]; reflexivity.
Qed.

(** A number that compares with one number compares with every number that
    is not NaN. *)
Lemma comparable_with_any x y z c :
  compare_floats x y = Some c ->
  compare_floats z z = Some Eq ->
  exists c', compare_floats x z = Some c'.
Proof.
  unfold compare_floats.
  destruct (Prim2SF x), (Prim2SF y), (Prim2SF z); cbn; intros; try discriminate;
    eexists; reflexivity.
Qed.

(** Below or at a threshold is strictly below every larger one. *)
Lemma below_larger x a b c :
  compare_floats x a = Some c -> le_result c = true ->
  compare_floats a b = Some Lt ->
  compare_floats x b = Some Lt.
Proof.
  unfold compare_floats. intros H L Hab.
  rewrite (@SFcompare_chain _ _ _ _ _ H Hab L eq_refl).
  destruct c; reflexivity.
Qed.




End FloatOrder.

(* ===================================================================== *)
(** * Properties of the client component                                  *)
(* ===================================================================== *)

Module PageFacts.
Import Page FloatOrder JSFacts.

(** ** The stage buckets *)

(** C4: for a progress value in [0,1], the stage is 0 exactly up to 0.2,
    1 above 0.2 up to 0.3, 2 above 0.3 up to 0.5, 3 above 0.5 up to 0.7,
    4 above 0.7 up to 0.9, 5 above 0.9 and below 1.0, and 6 from 1.0 on:
    every threshold belongs to the bracket below it. *)
Theorem C4_stage_buckets (p : float) :
  (0 <=? p)%float = true ->
  (p <=? 1)%float = true ->
  (stage_of_progress p = 0 <-> (p <=? 0.2)%float = true)
  /\ (stage_of_progress p = 1 <-> (0.2 <? p)%float = true /\ (p <=? 0.3)%float = true)
  /\ (stage_of_progress p = 2 <-> (0.3 <? p)%float = true /\ (p <=? 0.5)%float = true)
  /\ (stage_of_progress p = 3 <-> (0.5 <? p)%float = true /\ (p <=? 0.7)%float = true)
  /\ (stage_of_progress p = 4 <-> (0.7 <? p)%float = true /\ (p <=? 0.9)%float = true)
  /\ (stage_of_progress p = 5 <-> (0.9 <? p)%float = true /\ (p <? 1.0)%float = true)
  /\ (stage_of_progress p = 6 <-> (1.0 <=? p)%float = true).
Proof.
  intros _ Hle1.
  rewrite leb_by_compare in Hle1.
  destruct (compare_floats p 1) as [c6|] eqn:E6; [|discriminate].
  destruct (@comparable_with_any p 1 0.2 _ E6 eq_refl) as [c1 E1].
  destruct (@comparable_with_any p 1 0.3 _ E6 eq_refl) as [c2 E2].
  destruct (@comparable_with_any p 1 0.5 _ E6 eq_refl) as [c3 E3].
  destruct (@comparable_with_any p 1 0.7 _ E6 eq_refl) as [c4 E4].
  destruct (@comparable_with_any p 1 0.9 _ E6 eq_refl) as [c5 E5].
  pose proof (fun L => @below_larger p 0.2 0.3 _ E1 L eq_refl) as M1.
  pose proof (fun L => @below_larger p 0.3 0.5 _ E2 L eq_refl) as M2.
  pose proof (fun L => @below_larger p 0.5 0.7 _ E3 L eq_refl) as M3.
  pose proof (fun L => @below_larger p 0.7 0.9 _ E4 L eq_refl) as M4.
  pose proof (fun L => @below_larger p 0.9 1 _ E5 L eq_refl) as M5.
  rewrite E2 in M1. rewrite E3 in M2. rewrite E4 in M3. rewrite E5 in M4.
  rewrite E6 in M5.
  unfold stage_of_progress.
  rewrite (geb_by_compare p 1).
  rewrite (gtb_by_compare p 0.2), (gtb_by_compare p 0.3), (gtb_by_compare p 0.5),
    (gtb_by_compare p 0.7), (gtb_by_compare p 0.9).
  rewrite !(ltb_by_compare p 1), !leb_by_compare.
  rewrite E1, E2, E3, E4, E5, E6.
  clear E1 E2 E3 E4 E5 E6.
  destruct c1, c2, c3, c4, c5, c6; cbn in *;
    try discriminate Hle1;
    try discriminate (M1 eq_refl); try discriminate (M2 eq_refl);
    try discriminate (M3 eq_refl); try discriminate (M4 eq_refl);
    try discriminate (M5 eq_refl);
    repeat split; intros; try discriminate; try reflexivity;
    repeat match goal with H : _ /\ _ |- _ => destruct H end; try discriminate.
Qed.

Lemma C4_stage_buckets_witness :
  stage_of_progress 0.21 = 1.
Proof.
  exact (proj2 (proj1 (proj2 (@C4_stage_buckets 0.21%float eq_refl eq_refl)))
               (conj eq_refl eq_refl)).
Defined.

(** The values the specification lists. *)
Example stage_of_progress_samples :
  map stage_of_progress [0.0; 0.2; 0.21; 0.3; 0.5; 0.7; 0.71; 0.9; 0.95; 1.0]%float
  = [0; 0; 1; 1; 2; 3; 4; 4; 5; 6].
Proof. reflexivity. Qed.



(** ** Rendering and effects *)

Ltac break_if :=
  match goal with
  | |- context [if ?b then _ else _] => destruct b eqn:?
  end.

Lemma commit_frame c :
  mounted (commit c) = mounted c
  /\ pollers (commit c) = pollers c
  /\ next_interval (commit c) = next_interval c
  /\ pending_submits (commit c) = pending_submits c
  /\ pending_polls (commit c) = pending_polls c
  /\ pending_health (commit c) = pending_health c
  /\ sent (commit c) = sent c.
Proof.
  unfold commit, jobId_effect, ticker_effect, set.
  destruct c as [s m t ps n psub ppoll ph snt]; cbn.
  repeat (break_if; cbn); repeat split; congruence.
Qed.

Lemma commit_state_frame c :
  isLoading (state (commit c)) = isLoading (state c)
  /\ error (state (commit c)) = error (state c)
  /\ report (state (commit c)) = report (state c)
  /\ topic (state (commit c)) = topic (state c).
Proof.
  unfold commit, jobId_effect, ticker_effect, set.
  destruct c as [s m t ps n psub ppoll ph snt]; cbn.
  repeat (break_if; cbn); repeat split; congruence.
Qed.

Lemma form_visible_commit c : form_visible (commit c) = form_visible c.
Proof.
  unfold form_visible.
  destruct (commit_frame c) as (-> & _).
  destruct (commit_state_frame c) as (-> & -> & -> & _).
  reflexivity.
Qed.


(** A second pass of the effects finds nothing to do. *)
Lemma commit_idempotent c : commit (commit c) = commit c.
Proof.
  unfold commit, jobId_effect, ticker_effect, set.
  destruct c as [[] m t ps n psub ppoll ph snt]; cbn.
  repeat (break_if; cbn in *; try congruence).
  all: reflexivity.
Qed.

Lemma trimStart_blank s : forallb is_whitespace s = true -> trimStart s = [].
Proof.
  induction s as [|ch s IH]; cbn [forallb trimStart]; [reflexivity|].
  intros H. apply andb_true_iff in H as [-> H]. auto.
Qed.

Lemma trim_blank s : forallb is_whitespace s = true -> trim s = [].
Proof.
  intros H. unfold trim, trimEnd. now rewrite (trimStart_blank _ H).
Qed.

(** ** Sample surroundings for the concrete runs *)

(** String parsing is never reached in the concrete runs (every [progress]
    there is a number); this stands in for it. *)
Definition no_parse : JSValue -> float := fun _ => PrimFloat.nan.

Definition job_started : FetchResponse :=
  {| fstatus := 200;
     fjson := inr (JObj [(lit "job_id", JStr (lit "job-1"));
                         (lit "status", JStr (lit "queued"))]) |}.

Definition progress_report (p : float) : FetchResponse :=
  {| fstatus := 200;
     fjson := inr (JObj [(lit "status", JStr (lit "running"));
                         (lit "progress", JNum p)]) |}.

(** Type a topic, submit it, and get a job id back: polling starts. *)
Definition start_polling : list Event :=
  [Change (lit "solar sails"); Submit; SubmitSettled 0 (inr job_started)].

(** One round trip of the poller. *)
Definition poll_round (r : Exc FetchResponse) : list Event :=
  [PollFire 0; PollSettled 0 r].



Section Facts.

Variable parse_number : JSValue -> float.

Local Abbreviation step := (Page.step parse_number).
Local Abbreviation run := (Page.run parse_number).
Local Abbreviation reachable := (Page.reachable parse_number).
Local Abbreviation poll_resume := (Page.poll_resume parse_number).

(** ** Reachable states are rendered states *)

Lemma step_rendered c e c' : step c e = Some c' -> commit c' = c'.
Proof.
  destruct e; cbn [Page.step]; intros H;
    repeat match type of H with
           | (if ?b then _ else _) = _ => destruct b eqn:?
           | match ?x with _ => _ end = _ => destruct x eqn:?
           end;
    try discriminate; inversion H; subst;
    try apply commit_idempotent.
  unfold unmount, commit. reflexivity.
Qed.

Lemma reachable_rendered c : reachable c -> commit c = c.
Proof.
  intros R. destruct R as [|c e c' _ H]; [reflexivity|].
  exact (step_rendered _ _ H).
Qed.

Lemma run_reachable es : forall c c',
  reachable c -> run c es = Some c' -> reachable c'.
Proof.
  induction es as [|e es IH]; cbn [Page.run]; intros c c' R H.
  - now inversion H; subst.
  - destruct (step c e) as [c1|] eqn:E; [|discriminate].
    exact (IH _ _ (reachable_step _ R E) H).
Qed.

(** Rendering does not look at what is pending. *)
Lemma commit_with_pending_polls l c :
  commit (with_pending_polls l c) = with_pending_polls l (commit c).
Proof.
  unfold commit, jobId_effect, ticker_effect, set.
  destruct c as [s m t ps n psub ppoll ph snt]; cbn.
  repeat (break_if; cbn in *; try congruence); reflexivity.
Qed.

(** ** Submitting *)

(** C8: with a topic that is empty or all whitespace, the submit handler
    returns at once: the state, the timers, the pending requests and the log
    of network calls are what they were, so nothing is sent and no error is
    set; submitting the form leaves the component as it was. *)
Theorem C8_blank_topic_is_noop c :
  forallb is_whitespace (topic (state c)) = true ->
  handleSubmit c = c
  /\ (reachable c -> form_visible c = true -> step c Submit = Some c).
Proof.
  intros Hblank.
  assert (Hh : handleSubmit c = c).
  { unfold handleSubmit. now rewrite (trim_blank _ Hblank). }
  split; [exact Hh|].
  intros R Hv. cbn [Page.step]. rewrite Hv, Hh.
  now rewrite (reachable_rendered R).
Qed.

(** ** Polling *)

(** C6: when the fetch of a poll throws, the callback swallows it: the
    whole React state is as before (so no error is set, loading is not
    cleared, the job is not failed), the timers are untouched, and the
    polling interval, if it is still live, fires again and sends the next
    status request. *)
Theorem C6_transient_poll_error_is_swallowed c k id jobId e :
  reachable c ->
  nth_error (pending_polls c) k = Some (id, jobId) ->
  exists c',
    step c (PollSettled k (inl e)) = Some c'
    /\ state c' = state c
    /\ pollers c' = pollers c
    /\ ticker c' = ticker c
    /\ sent c' = sent c
    /\ (forall j, find_poller id (pollers c) = Some j ->
        exists c'', step c' (PollFire id) = Some c''
                    /\ sent c'' = sent c' ++ [GetStatus j]
                    /\ state c'' = state c).
Proof.
  intros R Hk.
  assert (Hc : commit c = c) by exact (reachable_rendered R).
  eexists. split.
  { cbn [Page.step]. rewrite Hk. reflexivity. }
  change (Page.poll_resume parse_number id (inl e)
            (with_pending_polls (remove_nth k (pending_polls c)) c))
    with (with_pending_polls (remove_nth k (pending_polls c)) c).
  rewrite commit_with_pending_polls, Hc.
  repeat split.
  intros j Hj. eexists. split.
  { cbn [Page.step]. cbn [pollers with_pending_polls]. rewrite Hj. reflexivity. }
  destruct (commit_frame (poll_fire id j
              (with_pending_polls (remove_nth k (pending_polls c)) c)))
    as (_ & _ & _ & _ & _ & _ & ->).
  split; [reflexivity|].
  unfold poll_fire.
  rewrite commit_with_pending_polls.
  cbn [state with_pending_polls].
  assert (Hs : forall l c0, commit (with_sent l c0) = with_sent l (commit c0)).
  { intros l c0. unfold commit, jobId_effect, ticker_effect, set.
    destruct c0 as [s m t ps n psub ppoll ph snt]; cbn.
    repeat (break_if; cbn in *; try congruence); reflexivity. }
  rewrite Hs, commit_with_pending_polls, Hc. reflexivity.
Qed.

(** C3, on the code: the polling interval is cleared only by the poll
    callback itself. After the component is torn down while a job is being
    polled, the interval is still live: it fires and sends a further status
    request. *)
Theorem C3_polling_survives_unmount :
  exists c c',
    run init (start_polling ++ [Unmount]) = Some c
    /\ mounted c = false
    /\ ticker c = None
    /\ pollers c = [(0, JStr (lit "job-1"))]
    /\ step c (PollFire 0) = Some c'
    /\ sent c' = sent c ++ [GetStatus (JStr (lit "job-1"))]
    /\ pollers c' = pollers c.
Proof.
  eexists _, _. split; [vm_compute; reflexivity|].
  repeat split.
Qed.

(** ** The displayed stage *)


(** ** One submission at a time *)

Ltac break_any :=
  match goal with
  | |- context [match ?x with _ => _ end] =>
      lazymatch x with
      | true => fail
      | false => fail
      | context [match _ with _ => _ end] => fail
      | _ => first [ is_var x; destruct x | destruct x eqn:? ]
      end
  end.

Lemma truthy_or_else a s : s <> [] -> truthy (or_else a (JStr s)) = true.
Proof.
  intros Hs. unfold or_else. destruct (truthy a) eqn:E; [exact E|].
  destruct s; [congruence|reflexivity].
Qed.

(** What resuming [handleSubmit] can touch: it never adds or drops a
    pending request, and it starts a poller only on the path that leaves
    [isLoading] alone. *)
Lemma handleSubmit_resume_frame r c :
  mounted (handleSubmit_resume r c) = mounted c
  /\ pending_submits (handleSubmit_resume r c) = pending_submits c
  /\ pending_polls (handleSubmit_resume r c) = pending_polls c
  /\ (pollers (handleSubmit_resume r c) = pollers c
      \/ isLoading (state (handleSubmit_resume r c)) = isLoading (state c)).
Proof.
  unfold handleSubmit_resume, try_catch, bind, await, throw, ret,
    setServerStatus, setJobId, setReport, setIsLoading, setState,
    startPollingJobStatus, set.
  destruct c as [s m t ps n psub ppoll ph snt]; cbn.
  repeat (break_any; cbn); repeat split; auto.
Qed.

(** What resuming a poll callback can touch: no submission, and it never
    brings the form back (what it stores in [error] or [report] is
    truthy). *)
Lemma poll_resume_frame id r c :
  mounted (poll_resume id r c) = mounted c
  /\ pending_submits (poll_resume id r c) = pending_submits c
  /\ (form_visible c = false -> form_visible (poll_resume id r c) = false).
Proof.
  assert (T1 := truthy_or_else).
  unfold Page.poll_resume, try_catch, bind, await, throw, ret,
    setProcessingTime, setCurrentStage, setError, setReport, setIsLoading,
    setState, clearInterval, set, form_visible.
  destruct c as [s m t ps n psub ppoll ph snt]; cbn.
  repeat (break_any; cbn); repeat split; auto.
  all: intros _;
    repeat match goal with
           | H : _ && _ = true |- _ => apply andb_true_iff in H; destruct H
           end;
    try rewrite T1 by (unfold lit; cbn; discriminate);
    repeat match goal with
           | H : truthy _ = true |- _ => rewrite H
           end;
    cbn; auto using andb_false_r.
Qed.

(** What [handleSubmit] does to the fields the gate ([form_visible]) and
    the bookkeeping of requests depend on. *)
Lemma handleSubmit_frame c :
  mounted c = true ->
  mounted (handleSubmit c) = true
  /\ pollers (handleSubmit c) = pollers c
  /\ pending_polls (handleSubmit c) = pending_polls c
  /\ (handleSubmit c = c
      \/ (pending_submits (handleSubmit c) = pending_submits c ++ [topic (state c)]
          /\ sent (handleSubmit c) = sent c ++ [SubmitReport (topic (state c))]
          /\ isLoading (state (handleSubmit c)) = true)).
Proof.
  unfold handleSubmit, set.
  destruct c as [s m t ps n psub ppoll ph snt]; cbn. intros ->.
  destruct (trim (topic s)); cbn; auto 10.
Qed.

(** The invariant behind the single submission: at most one POST is
    pending; while one is pending in a mounted component it is loading and
    nothing polls; and whenever the form is on screen nothing is pending and
    nothing polls. *)
Definition single_flight (c : Client) : Prop :=
  List.length (pending_submits c) <= 1
  /\ (pending_submits c <> [] -> mounted c = true ->
      isLoading (state c) = true /\ pollers c = [] /\ pending_polls c = [])
  /\ (form_visible c = true ->
      pending_submits c = [] /\ pollers c = [] /\ pending_polls c = []).

Lemma single_flight_commit c : single_flight c -> single_flight (commit c).
Proof.
  unfold single_flight.
  rewrite form_visible_commit.
  destruct (commit_frame c) as (-> & -> & _ & -> & -> & _).
  destruct (commit_state_frame c) as (-> & _).
  auto.
Qed.

Lemma form_visible_mounted c : form_visible c = true -> mounted c = true.
Proof.
  unfold form_visible. destruct (mounted c); [reflexivity|discriminate].
Qed.

Lemma form_visible_not_loading c :
  form_visible c = true -> isLoading (state c) = false.
Proof.
  unfold form_visible. destruct (mounted c), (isLoading (state c)); cbn;
    solve [reflexivity | discriminate].
Qed.

Lemma single_flight_step c e c' :
  single_flight c -> step c e = Some c' -> single_flight c'.
Proof.
  intros (Hlen & Hbusy & Hform) Hstep.
  destruct e as [value| |k r| |id|k r|r| ]; cbn [Page.step] in Hstep.
  - (* Change *)
    destruct (form_visible c) eqn:Hv; [|discriminate].
    inversion Hstep; subst c'; clear Hstep.
    apply single_flight_commit.
    destruct (Hform eq_refl) as (Hs & Hp & Hpp).
    unfold single_flight, set. rewrite (form_visible_mounted _ Hv).
    cbn. rewrite Hs, Hp, Hpp. cbn. repeat split; auto; congruence.
  - (* Submit *)
    destruct (form_visible c) eqn:Hv; [|discriminate].
    inversion Hstep; subst c'; clear Hstep.
    apply single_flight_commit.
    destruct (Hform eq_refl) as (Hs & Hp & Hpp).
    destruct (handleSubmit_frame c (form_visible_mounted _ Hv))
      as (Hm' & Hp' & Hpp' & [Hsame | (Hs' & _ & Hl')]).
    + rewrite Hsame. unfold single_flight. auto.
    + unfold single_flight. rewrite Hs', Hp', Hpp', Hs, Hp, Hpp.
      split; [cbn; lia|]. split; [auto|].
      intros Hv'. apply form_visible_not_loading in Hv'. congruence.
  - (* SubmitSettled *)
    destruct (nth_error (pending_submits c) k) as [tp|] eqn:Hk; [|discriminate].
    inversion Hstep; subst c'; clear Hstep.
    apply single_flight_commit.
    assert (Hne : pending_submits c <> []).
    { intros E. rewrite E in Hk. destruct k; discriminate. }
    assert (Hrm : remove_nth k (pending_submits c) = []).
    { destruct (pending_submits c) as [|x [|y l]]; [congruence| |cbn in Hlen; lia].
      destruct k as [|[|k]]; cbn in Hk |- *; congruence. }
    rewrite Hrm.
    set (c0 := with_pending_submits [] c).
    destruct (handleSubmit_resume_frame r c0) as (Hm' & Hs' & Hpp' & Hpoll).
    unfold single_flight. rewrite Hs', Hpp'. cbn [c0 pending_submits with_pending_submits pending_polls].
    split; [cbn; lia|]. split; [congruence|].
    intros Hv'. pose proof (form_visible_mounted _ Hv') as Hmt.
    rewrite Hm' in Hmt. cbn in Hmt.
    destruct (Hbusy Hne Hmt) as (Hl & Hp & Hpp).
    split; [reflexivity|]. split; [|exact Hpp].
    destruct Hpoll as [Hsame | Hsame].
    + rewrite Hsame. exact Hp.
    + apply form_visible_not_loading in Hv'. rewrite Hsame in Hv'.
      cbn in Hv'. congruence.
  - (* Tick *)
    destruct (ticker c) as [[pt cs]|]; [|discriminate].
    inversion Hstep; subst c'; clear Hstep.
    apply single_flight_commit.
    assert (F : form_visible (ticker_callback pt cs c) = form_visible c
                /\ pending_submits (ticker_callback pt cs c) = pending_submits c
                /\ pollers (ticker_callback pt cs c) = pollers c
                /\ pending_polls (ticker_callback pt cs c) = pending_polls c
                /\ mounted (ticker_callback pt cs c) = mounted c
                /\ isLoading (state (ticker_callback pt cs c)) = isLoading (state c)).
    { unfold ticker_callback, set, form_visible.
      destruct c as [s m t ps n psub ppoll ph snt]; cbn.
      repeat (break_any; cbn); repeat split. }
    destruct F as (F1 & F2 & F3 & F4 & F5 & F6).
    unfold single_flight. rewrite F1, F2, F3, F4, F5, F6. auto.
  - (* PollFire *)
    destruct (find_poller id (pollers c)) as [j|] eqn:Hf; [|discriminate].
    inversion Hstep; subst c'; clear Hstep.
    apply single_flight_commit.
    assert (Hne : pollers c <> []).
    { intros E. rewrite E in Hf. discriminate. }
    unfold single_flight, poll_fire, form_visible in *. cbn.
    split; [exact Hlen|]. split.
    + intros Hs Hm. destruct (Hbusy Hs Hm) as (_ & Hp & _). congruence.
    + intros Hv. destruct (Hform Hv) as (_ & Hp & _). congruence.
  - (* PollSettled *)
    destruct (nth_error (pending_polls c) k) as [[id j]|] eqn:Hk; [|discriminate].
    inversion Hstep; subst c'; clear Hstep.
    apply single_flight_commit.
    assert (Hne : pending_polls c <> []).
    { intros E. rewrite E in Hk. destruct k; discriminate. }
    set (c0 := with_pending_polls (remove_nth k (pending_polls c)) c).
    destruct (poll_resume_frame id r c0) as (Hm' & Hs' & Hv').
    assert (Hhidden : form_visible c0 = false).
    { change (form_visible c0) with (form_visible c).
      destruct (form_visible c) eqn:Hv; [|reflexivity].
      destruct (Hform eq_refl) as (_ & _ & Hpp). congruence. }
    unfold single_flight. rewrite Hs', Hm', (Hv' Hhidden).
    cbn [c0 pending_submits mounted with_pending_polls].
    split; [exact Hlen|]. split; [|discriminate].
    intros Hs Hm. destruct (Hbusy Hs Hm) as (_ & _ & Hpp). congruence.
  - (* HealthSettled *)
    destruct (pending_health c); [|discriminate].
    inversion Hstep; subst c'; clear Hstep.
    apply single_flight_commit.
    set (c0 := with_pending_health false c).
    assert (F : form_visible (fetchServerStatus_resume r c0) = form_visible c
                /\ pending_submits (fetchServerStatus_resume r c0) = pending_submits c
                /\ pollers (fetchServerStatus_resume r c0) = pollers c
                /\ pending_polls (fetchServerStatus_resume r c0) = pending_polls c
                /\ mounted (fetchServerStatus_resume r c0) = mounted c
                /\ isLoading (state (fetchServerStatus_resume r c0)) = isLoading (state c)).
    { unfold c0, fetchServerStatus_resume, try_catch, bind, await, setServerStatus,
        setState, set, form_visible.
      destruct c as [s m t ps n psub ppoll ph snt]; cbn.
      repeat (break_any; cbn); repeat split. }
    destruct F as (F1 & F2 & F3 & F4 & F5 & F6).
    unfold single_flight. rewrite F1, F2, F3, F4, F5, F6. auto.
  - (* Unmount *)
    destruct (mounted c); [|discriminate].
    inversion Hstep; subst c'; clear Hstep.
    unfold single_flight, unmount, form_visible. cbn.
    split; [exact Hlen|]. split; discriminate.
Qed.

Lemma reachable_single_flight c : reachable c -> single_flight c.
Proof.
  induction 1 as [|c e c' _ IH Hstep].
  - unfold single_flight. cbn. repeat split; try lia; try congruence.
  - exact (single_flight_step _ IH Hstep).
Qed.

(** C9: in every state the component can reach, at most one submit request
    is pending; and while one is pending the form is not rendered, so a
    further submit cannot be delivered: no second request is sent. *)
Theorem C9_single_submit_in_flight c :
  reachable c ->
  List.length (pending_submits c) <= 1
  /\ (pending_submits c <> [] ->
      form_visible c = false /\ step c Submit = None).
Proof.
  intros R. destruct (reachable_single_flight R) as (Hlen & Hbusy & Hform).
  split; [exact Hlen|]. intros Hne.
  assert (Hv : form_visible c = false).
  { destruct (form_visible c) eqn:Hv; [|reflexivity].
    destruct (Hform eq_refl) as (Hs & _). congruence. }
  split; [exact Hv|]. cbn [Page.step]. now rewrite Hv.
Qed.



End Facts.

(** The component after a run from the mounted state ([init] itself if the
    run cannot happen). *)
Definition after (es : list Event) : Client :=
  match run no_parse init es with
  | Some c => c
  | None => init
  end.

(** A job is being polled and a status request is out. *)
Definition awaiting_report : Client :=
  Eval vm_compute in after (start_polling ++ [PollFire 0]).

Definition reported_half : Client :=
  Eval vm_compute in
    after (start_polling ++ poll_round (inr (progress_report 0.5))).



Lemma C6_transient_poll_error_is_swallowed_witness :
  exists c',
    step no_parse awaiting_report
      (PollSettled 0 (inl (ErrorObject (lit "Failed to fetch")))) = Some c'
    /\ state c' = state awaiting_report
    /\ pollers c' = pollers awaiting_report
    /\ ticker c' = ticker awaiting_report
    /\ sent c' = sent awaiting_report
    /\ (forall j, find_poller 0 (pollers awaiting_report) = Some j ->
        exists c'', step no_parse c' (PollFire 0) = Some c''
                    /\ sent c'' = sent c' ++ [GetStatus j]
                    /\ state c'' = state awaiting_report).
Proof.
  refine (@C6_transient_poll_error_is_swallowed no_parse awaiting_report 0 0
            (JStr (lit "job-1")) (ErrorObject (lit "Failed to fetch")) _ _).
  - apply (@run_reachable no_parse (start_polling ++ [PollFire 0]) init).
    + apply reachable_init.
    + vm_compute. reflexivity.
  - vm_compute. reflexivity.
Defined.

(** A topic has been submitted and the POST has not settled. *)
Definition submitting : Client :=
  Eval vm_compute in after [Change (lit "solar sails"); Submit].

Lemma C9_single_submit_in_flight_witness :
  form_visible submitting = false /\ step no_parse submitting Submit = None.
Proof.
  refine (proj2 (@C9_single_submit_in_flight no_parse submitting _) _).
  - apply (@run_reachable no_parse [Change (lit "solar sails"); Submit] init).
    + apply reachable_init.
    + vm_compute. reflexivity.
  - discriminate.
Defined.

(** The gate is the form, not the handler: [handleSubmit] has no check of
    its own on [isLoading], and a call with a topic that is not blank always
    makes a request. It is wired to the form's [onSubmit] only, and the form
    is rendered under [form_visible]. *)
Remark handleSubmit_always_sends c :
  mounted c = true ->
  trim (topic (state c)) <> [] ->
  sent (handleSubmit c) = sent c ++ [SubmitReport (topic (state c))].
Proof.
  intros Hm Ht. unfold handleSubmit, set.
  destruct (trim (topic (state c))) as [|ch rest]; [congruence|].
  destruct c as [s m t ps n psub ppoll ph snt]; cbn in *. subst m. reflexivity.
Qed.

Definition blank_form : Client := set (with_topic (lit "  ")) init.

Lemma C8_blank_topic_is_noop_witness :
  handleSubmit blank_form = blank_form.
Proof.
  exact (proj1 (@C8_blank_topic_is_noop no_parse blank_form eq_refl)).
Defined.

End PageFacts.

(* ===================================================================== *)
(** * More on the proxy route: validation, the gate, pass-through         *)
(* ===================================================================== *)

Module RouteCoverage.
Import Route JSFacts RouteFacts.

Ltac break_inner :=
  match goal with
  | |- context [match ?x with _ => _ end] =>
      lazymatch x with
      | true => fail
      | false => fail
      | context [match _ with _ => _ end] => fail
      | _ => first [ is_var x; destruct x | destruct x eqn:? ]
      end
  end.

(** ** Outbound calls *)

(** Whatever [start_job] comes to, it has made exactly one call. *)
Lemma start_job_log env net body log :
  snd (try_catch (start_job env net body) internal_error log)
  = log ++ [generate_request env body].
Proof.
  unfold try_catch, start_job, bind, await, fetch, ret.
  repeat (break_inner; cbn [snd]); reflexivity.
Qed.

(** X1: [POST] validates before it calls out. With a body that parses, no
    outbound call is made exactly when the topic is missing or falsy (a body
    that is [null] or not an object, no [topic], an empty [topic]), and the
    answer is then 400 "Topic is required"; otherwise the first call is the
    health check. *)
Theorem X1_POST_validates_topic env net req body :
  req_json req = inr body ->
  (truthy (opt_member body (lit "topic")) = false ->
   POST env net req
   = (json (JObj [(lit "detail", JStr (lit "Topic is required"))]) 400, []))
  /\ (truthy (opt_member body (lit "topic")) = true ->
      exists rest, snd (POST env net req) = health_request env :: rest).
Proof.
  intros Hbody. split; intros Htopic.
  - run_handler. rewrite Hbody, Htopic. reflexivity.
  - run_handler. rewrite Hbody, Htopic. cbn [negb List.length app].
    repeat (break_inner; cbn [snd app]); eexists; reflexivity.
Qed.

Definition null_body : NextRequest :=
  {| req_json := inr JNull; req_jobId := None |}.

Lemma X1_POST_validates_topic_witness :
  POST sample_env unreachable null_body
  = (json (JObj [(lit "detail", JStr (lit "Topic is required"))]) 400, []).
Proof.
  exact (proj1 (@X1_POST_validates_topic sample_env unreachable null_body JNull eq_refl)
               eq_refl).
Defined.

(** X2: a health payload whose [server_status] is ["busy"] is answered 429
    with [serverStatus: "busy"] and the payload's [current_load] and
    [max_capacity] handed on as they are (absent ones as [undefined]), whatever
    [is_warming_up] says; the job is not forwarded. *)
Theorem X2_POST_busy_gate env net req body healthResponse healthData :
  req_json req = inr body ->
  truthy (opt_member body (lit "topic")) = true ->
  net 0 (health_request env) = inr healthResponse ->
  ok healthResponse = true ->
  fjson healthResponse = inr healthData ->
  is_string (own_prop healthData (lit "server_status")) (lit "busy") = true ->
  POST env net req
  = (json (busy_body (own_prop healthData (lit "current_load"))
                     (own_prop healthData (lit "max_capacity"))) 429,
     [health_request env]).
Proof.
  intros Hbody Htopic Hnet Hok Hjson Hbusy.
  assert (Hm : member healthData (lit "server_status")
               = inr (own_prop healthData (lit "server_status"))).
  { destruct healthData; cbn in Hbusy |- *; try discriminate; reflexivity. }
  run_handler.
  rewrite Hbody, Htopic. cbn [negb List.length].
  rewrite Hnet, Hok. cbn [negb app]. rewrite Hjson, Hm, Hbusy.
  rewrite (@member_same_payload _ _ (lit "current_load") _ Hm).
  rewrite (@member_same_payload _ _ (lit "max_capacity") _ Hm).
  reflexivity.
Qed.

Definition busy_only : JSValue :=
  JObj [(lit "server_status", JStr (lit "busy")); (lit "current_load", JNum 3)].

Lemma X2_POST_busy_gate_witness :
  POST sample_env (health_says busy_only) sample_request
  = (json (busy_body (JNum 3) JUndefined) 429, [health_request sample_env]).
Proof.
  exact (@X2_POST_busy_gate sample_env (health_says busy_only) sample_request
           _ _ busy_only eq_refl eq_refl eq_refl eq_refl eq_refl eq_refl).
Defined.

(** X3: the capacity gate is exact. For a body that parses, [POST] calls
    the backend's job-creation endpoint if and only if the body carries a
    topic and the health check answered with a success status and a payload
    that is neither busy nor warming up; and then the body is forwarded as
    it came, after the health call. *)
Theorem X3_POST_forwards_iff_admitted env net req body :
  req_json req = inr body ->
  (snd (POST env net req) = [health_request env; generate_request env body]
   <-> admitted env net req body).
Proof.
  intros Hbody. split.
  - unfold admitted. rewrite Hbody.
    unfold POST, try_catch, POST_try, bind, await, fetch, ret.
    rewrite Hbody.
    destruct (truthy (opt_member body (lit "topic"))) eqn:Htopic;
      cbn [negb List.length app snd]; [|discriminate].
    destruct (net 0 (health_request env)) as [e|hr] eqn:Hnet;
      cbn [snd]; [discriminate|].
    destruct (ok hr) eqn:Hok; cbn [negb snd]; [|discriminate].
    destruct (fjson hr) as [e|hd] eqn:Hjson; cbn [snd]; [discriminate|].
    destruct (member hd (lit "server_status")) as [e|ss] eqn:Hss;
      cbn [snd]; [discriminate|].
    destruct (is_string ss (lit "busy")) eqn:Hbusy.
    { rewrite (@member_same_payload _ _ (lit "current_load") _ Hss).
      rewrite (@member_same_payload _ _ (lit "max_capacity") _ Hss).
      cbn [snd]. discriminate. }
    rewrite (@member_same_payload _ _ (lit "is_warming_up") _ Hss).
    destruct (truthy (own_prop hd (lit "is_warming_up"))) eqn:Hwarm;
      cbn [snd]; [discriminate|].
    intros _. repeat split.
    exists hr, hd, ss. repeat split; assumption.
  - intros Hadm. rewrite (POST_admitted Hadm).
    exact (start_job_log env net body [health_request env]).
Qed.

Lemma X3_POST_forwards_iff_admitted_witness :
  snd (POST sample_env (healthy_then (inr bad_gateway)) sample_request)
  = [health_request sample_env;
     generate_request sample_env (JObj [(lit "topic", JStr (lit "solar sails"))])].
Proof.
  exact (proj2 (@X3_POST_forwards_iff_admitted sample_env
                  (healthy_then (inr bad_gateway)) sample_request _ eq_refl)
               (healthy_then_admits (inr bad_gateway))).
Defined.

(** X4: when the backend accepts the forwarded job (a success status and a
    body that parses), [POST] hands the backend's job descriptor back
    unchanged, under status 200 whatever success status the backend used. *)
Theorem X4_POST_returns_job_unchanged env net req body response jobData :
  admitted env net req body ->
  net 1 (generate_request env body) = inr response ->
  ok response = true ->
  fjson response = inr jobData ->
  POST env net req
  = (json jobData 200, [health_request env; generate_request env body]).
Proof.
  intros Hadm Hnet Hok Hjson.
  rewrite (POST_admitted Hadm).
  unfold try_catch, start_job, bind, await, fetch, ret.
  cbn [List.length]. rewrite Hnet, Hok. cbn [negb]. rewrite Hjson. reflexivity.
Qed.

Definition created : FetchResponse :=
  {| fstatus := 201;
     fjson := inr (JObj [(lit "job_id", JStr (lit "job-1"));
                         (lit "status", JStr (lit "queued"))]) |}.

Lemma X4_POST_returns_job_unchanged_witness :
  fst (POST sample_env (healthy_then (inr created)) sample_request)
  = json (JObj [(lit "job_id", JStr (lit "job-1"));
                (lit "status", JStr (lit "queued"))]) 200.
Proof.
  exact (f_equal fst
           (@X4_POST_returns_job_unchanged sample_env (healthy_then (inr created))
              sample_request _ created _
              (healthy_then_admits (inr created)) eq_refl eq_refl eq_refl)).
Defined.

(** [headers[name]] on the headers object of an outbound call. *)
Fixpoint header (name : jsstring) (hs : list (jsstring * jsstring)) : option jsstring :=
  match hs with
  | [] => None
  | (n, v) :: rest => if str_eqb name n then Some v else header name rest
  end.

Lemma POST_calls env net req :
  snd (POST env net req) = []
  \/ snd (POST env net req) = [health_request env]
  \/ exists body, snd (POST env net req)
                  = [health_request env; generate_request env body].
Proof.
  run_handler.
  repeat (break_inner; cbn [snd app List.length]); eauto.
Qed.

Lemma GET_calls env net req :
  snd (GET env net req) = []
  \/ exists jobId, snd (GET env net req) = [job_status_request env jobId].
Proof.
  run_handler.
  repeat (break_inner; cbn [snd app List.length]); eauto.
Qed.

Lemma headers_of_make_headers env :
  header (lit "Content-Type") (make_headers env) = Some (lit "application/json")
  /\ header (lit "X-API-Key") (make_headers env)
     = match API_KEY env with
       | Some (c :: k) => Some (c :: k)
       | _ => None
       end.
Proof.
  unfold make_headers. destruct (API_KEY env) as [[|c k]|]; split; reflexivity.
Qed.

(** X5: [POST] makes at most two outbound calls and [GET] at most one, and
    every one of them carries [Content-Type: application/json] and carries
    [X-API-Key] exactly when [API_KEY] is set to a non-empty string, with
    that value (an unset or empty key is not an error: the header is left
    out). *)
Theorem X5_outbound_calls_carry_the_key env net req :
  List.length (snd (POST env net req)) <= 2
  /\ List.length (snd (GET env net req)) <= 1
  /\ forall r,
       In r (snd (POST env net req)) \/ In r (snd (GET env net req)) ->
       header (lit "Content-Type") (fheaders r) = Some (lit "application/json")
       /\ header (lit "X-API-Key") (fheaders r)
          = match API_KEY env with
            | Some (c :: k) => Some (c :: k)
            | _ => None
            end.
Proof.
  pose proof (headers_of_make_headers env) as Hh.
  destruct (POST_calls env net req) as [HP | [HP | (body & HP)]];
    destruct (GET_calls env net req) as [HG | (jobId & HG)];
    rewrite HP, HG; cbn [List.length In];
    (split; [lia|]); (split; [lia|]);
    intros r Hr;
    repeat match goal with
           | H : _ \/ _ |- _ => destruct H
           | H : False |- _ => destruct H
           end;
    subst r; exact Hh.
Qed.

(** ** [GET] *)

(** X6: [GET] validates before it calls out: no outbound call is made
    exactly when the [jobId] query parameter is missing or empty, and the
    answer is then 400 "Job ID is required"; otherwise the one call goes to
    [/job-status/] followed by the id as given. *)
Theorem X6_GET_validates_jobId env net req :
  (req_jobId req = None \/ req_jobId req = Some [] ->
   GET env net req
   = (json (JObj [(lit "detail", JStr (lit "Job ID is required"))]) 400, []))
  /\ (forall jobId,
      req_jobId req = Some jobId -> jobId <> [] ->
      snd (GET env net req) = [job_status_request env jobId]
      /\ furl (job_status_request env jobId)
         = interpolate (NEXT_PUBLIC_BACKEND_URL env) ++ lit "/job-status/" ++ jobId).
Proof.
  split.
  - intros [H | H]; run_handler; rewrite H; reflexivity.
  - intros jobId H Hne. split; [|reflexivity].
    run_handler. rewrite H. destruct jobId as [|c jobId]; [congruence|].
    repeat (break_inner; cbn [snd app List.length]); reflexivity.
Qed.

Definition no_job_id : NextRequest :=
  {| req_json := inr JNull; req_jobId := Some [] |}.

Lemma X6_GET_validates_jobId_witness :
  GET sample_env unreachable no_job_id
  = (json (JObj [(lit "detail", JStr (lit "Job ID is required"))]) 400, []).
Proof.
  exact (proj1 (@X6_GET_validates_jobId sample_env unreachable no_job_id)
               (or_intror eq_refl)).
Defined.

(** X7: when the backend answers the status request with a success status
    and a body that parses, [GET] hands that payload back unchanged under
    status 200. *)
Theorem X7_GET_returns_status_unchanged env net req jobId response jobStatus :
  req_jobId req = Some jobId ->
  jobId <> [] ->
  net 0 (job_status_request env jobId) = inr response ->
  ok response = true ->
  fjson response = inr jobStatus ->
  GET env net req = (json jobStatus 200, [job_status_request env jobId]).
Proof.
  intros Hid Hne Hnet Hok Hjson. run_handler.
  rewrite Hid. destruct jobId as [|c jobId]; [congruence|].
  cbn [List.length]. rewrite Hnet, Hok. cbn [negb]. rewrite Hjson. reflexivity.
Qed.

Definition running_half : FetchResponse :=
  {| fstatus := 200;
     fjson := inr (JObj [(lit "status", JStr (lit "running"));
                         (lit "progress", JNum 0.5)]) |}.

Lemma X7_GET_returns_status_unchanged_witness :
  GET sample_env (fun _ _ => inr running_half) status_request
  = (json (JObj [(lit "status", JStr (lit "running")); (lit "progress", JNum 0.5)]) 200,
     [job_status_request sample_env (lit "job-1")]).
Proof.
  refine (@X7_GET_returns_status_unchanged sample_env (fun _ _ => inr running_half)
            status_request (lit "job-1") running_half _ eq_refl _ eq_refl eq_refl eq_refl).
  discriminate.
Defined.

End RouteCoverage.

(* ===================================================================== *)
(** * More on the client: the job life cycle                              *)
(* ===================================================================== *)

Module PageCoverage.
Import Page FloatOrder JSFacts PageFacts.

Ltac break_inner :=
  match goal with
  | |- context [match ?x with _ => _ end] =>
      lazymatch x with
      | true => fail
      | false => fail
      | context [match _ with _ => _ end] => fail
      | _ => first [ is_var x; destruct x | destruct x eqn:? ]
      end
  end.

(** Unfolding a resumed callback down to its setters. *)
Ltac run_callback :=
  unfold handleSubmit_resume, Page.poll_resume, fetchServerStatus_resume,
    try_catch, bind, await, throw, ret,
    setServerStatus, setJobId, setReport, setError, setIsLoading,
    setProcessingTime, setCurrentStage, setState, startPollingJobStatus,
    clearInterval, set.

(** ** Blank topics *)

Lemma trimStart_empty_blank s : trimStart s = [] -> forallb is_whitespace s = true.
Proof.
  induction s as [|ch s IH]; cbn [trimStart forallb]; [reflexivity|].
  destruct (is_whitespace ch); [exact IH|discriminate].
Qed.

Lemma trimStart_head s ch rest :
  trimStart s = ch :: rest -> is_whitespace ch = false.
Proof.
  induction s as [|x s IH]; cbn [trimStart]; [discriminate|].
  destruct (is_whitespace x) eqn:E; [exact IH|].
  intros H. inversion H; subst. exact E.
Qed.

Lemma forallb_rev {A} (f : A -> bool) l : forallb f (rev l) = forallb f l.
Proof.
  induction l as [|x l IH]; [reflexivity|].
  cbn [rev forallb]. rewrite forallb_app, IH. cbn. rewrite andb_true_r.
  apply andb_comm.
Qed.

(** [trim] leaves nothing exactly of the strings made of white space. *)
Lemma trim_empty_iff s : trim s = [] <-> forallb is_whitespace s = true.
Proof.
  split; [|apply trim_blank].
  unfold trim, trimEnd. intros H.
  apply (f_equal (@rev N)) in H. rewrite rev_involutive in H. cbn [rev] in H.
  apply trimStart_empty_blank in H. rewrite forallb_rev in H.
  destruct (trimStart s) as [|ch rest] eqn:E.
  - exact (trimStart_empty_blank _ E).
  - apply trimStart_head in E. cbn [forallb] in H. rewrite E in H. discriminate.
Qed.

(** X8: in a mounted component the submit handler does nothing if and
    only if the topic is empty or all white space; with any other topic it
    makes exactly one request, which carries the topic as typed (not
    trimmed), and turns loading on. *)
Theorem X8_handleSubmit_acts_iff_not_blank c :
  mounted c = true ->
  (handleSubmit c = c <-> forallb is_whitespace (topic (state c)) = true)
  /\ (forallb is_whitespace (topic (state c)) = false ->
      sent (handleSubmit c) = sent c ++ [SubmitReport (topic (state c))]
      /\ pending_submits (handleSubmit c) = pending_submits c ++ [topic (state c)]
      /\ isLoading (state (handleSubmit c)) = true).
Proof.
  intros Hm.
  assert (Hact : forallb is_whitespace (topic (state c)) = false ->
                 sent (handleSubmit c) = sent c ++ [SubmitReport (topic (state c))]
                 /\ pending_submits (handleSubmit c)
                    = pending_submits c ++ [topic (state c)]
                 /\ isLoading (state (handleSubmit c)) = true).
  { intros Hnb. unfold handleSubmit, set.
    destruct (trim (topic (state c))) as [|ch rest] eqn:E.
    - apply trim_empty_iff in E. congruence.
    - destruct c as [s m t ps n psub ppoll ph snt]; cbn in *. subst m.
      repeat split. }
  split; [|exact Hact]. split.
  - intros Hsame.
    destruct (forallb is_whitespace (topic (state c))) eqn:Hb; [reflexivity|].
    destruct (Hact eq_refl) as (Hsent & _). rewrite Hsame in Hsent.
    apply (f_equal (@List.length Request)) in Hsent.
    rewrite length_app in Hsent. cbn in Hsent. lia.
  - intros Hb. unfold handleSubmit. now rewrite (trim_blank _ Hb).
Qed.

Definition padded_form : Client := set (with_topic (lit " tides ")) init.

Lemma X8_handleSubmit_acts_iff_not_blank_witness :
  sent (handleSubmit padded_form) = [HealthCheck; SubmitReport (lit " tides ")].
Proof.
  exact (proj1 (proj2 (@X8_handleSubmit_acts_iff_not_blank padded_form eq_refl)
                      eq_refl)).
Defined.

(** ** How a submission ends *)




(** X10: a submission whose fetch throws, or whose answer has a body that
    does not parse, is surfaced too (unlike a poll): the error shown is the
    thrown error's message, loading stops, and no polling starts. *)
Theorem X10_submit_exception_is_surfaced c r e :
  mounted c = true ->
  r = inl e \/ (exists response, r = inr response /\ fjson response = inl e) ->
  error (state (handleSubmit_resume r c)) = EValue (JStr (message_of e))
  /\ isLoading (state (handleSubmit_resume r c)) = false
  /\ pollers (handleSubmit_resume r c) = pollers c
  /\ sent (handleSubmit_resume r c) = sent c.
Proof.
  intros Hm [-> | (response & -> & Hjson)]; run_callback.
  - destruct c as [s m t ps n psub ppoll ph snt]; cbn in Hm |- *; subst m.
    repeat split.
  - rewrite Hjson.
    destruct c as [s m t ps n psub ppoll ph snt]; cbn in Hm |- *; subst m.
    destruct (ok response); cbn; repeat split.
Qed.

Lemma X10_submit_exception_is_surfaced_witness :
  error (state (handleSubmit_resume (inl (ErrorObject (lit "Failed to fetch"))) submitting))
  = EValue (JStr (lit "Failed to fetch")).
Proof.
  exact (proj1 (@X10_submit_exception_is_surfaced submitting _
                  (ErrorObject (lit "Failed to fetch")) eq_refl (or_introl eq_refl))).
Defined.




(** ** How a poll ends *)

Lemma find_poller_cleared id ps :
  find_poller id (filter (fun p => negb (Nat.eqb (fst p) id)) ps) = None.
Proof.
  induction ps as [|[i j] ps IH]; [reflexivity|].
  cbn [filter fst]. destruct (Nat.eqb i id) eqn:E; cbn [negb]; [exact IH|].
  cbn [find_poller]. now rewrite E.
Qed.

Section Polling.

Variable parse_number : JSValue -> float.

Local Abbreviation poll_resume := (Page.poll_resume parse_number).
Local Abbreviation step := (Page.step parse_number).
Local Abbreviation run := (Page.run parse_number).
Local Abbreviation reachable := (Page.reachable parse_number).


(** X13: on a poll answered with a non-success status the callback
    clears the interval at once and sends nothing. If the body parses and is
    not [null], it then calls [setError] with the body's [detail] as it came,
    not converted to a string (the generic message when that is absent or
    falsy), and [setIsLoading(false)]. If the body does not parse, or is
    [null], the exception is swallowed after the interval was cleared: the
    React state is left as it was, so a job that was loading stays loading
    with nothing polling for it. This is about the state the callback leaves,
    not about the render that follows. *)
Theorem X13_poll_failure_response c id response :
  mounted c = true ->
  ok response = false ->
  find_poller id (pollers (poll_resume id (inr response) c)) = None
  /\ sent (poll_resume id (inr response) c) = sent c
  /\ (forall errorData detail,
        fjson response = inr errorData ->
        member errorData (lit "detail") = inr detail ->
        error (state (poll_resume id (inr response) c))
        = EValue (or_else detail (JStr (lit "Failed to check job status")))
        /\ isLoading (state (poll_resume id (inr response) c)) = false
        /\ report (state (poll_resume id (inr response) c)) = report (state c))
  /\ (forall e,
        fjson response = inl e ->
        state (poll_resume id (inr response) c) = state c)
  /\ (forall errorData e,
        fjson response = inr errorData ->
        member errorData (lit "detail") = inl e ->
        state (poll_resume id (inr response) c) = state c).
Proof.
  intros Hm Hok.
  run_callback. rewrite Hok. cbn [negb].
  destruct c as [s m t ps n psub ppoll ph snt]; cbn in Hm |- *. subst m.
  split; [|split; [|split; [|split]]].
  - repeat (break_inner; cbn); apply find_poller_cleared.
  - repeat (break_inner; cbn); reflexivity.
  - intros errorData detail Hjson Hdetail. rewrite Hjson, Hdetail.
    cbn. repeat split.
  - intros e Hjson. rewrite Hjson. reflexivity.
  - intros errorData e Hjson Hdetail. rewrite Hjson, Hdetail. reflexivity.
Qed.

(** X14: whatever a poll comes to, if it ends loading it has cleared the
    interval that issued it: nothing keeps polling for a job the component
    no longer shows as loading. *)
Theorem X14_poll_that_ends_loading_clears_interval c id r :
  mounted c = true ->
  isLoading (state c) = true ->
  isLoading (state (poll_resume id r c)) = false ->
  find_poller id (pollers (poll_resume id r c)) = None.
Proof.
  intros Hm Hl.
  run_callback.
  destruct c as [s m t ps n psub ppoll ph snt]; cbn in Hm, Hl |- *. subst m.
  repeat (break_inner; cbn); intros H;
    solve [ apply find_poller_cleared | congruence ].
Qed.

End Polling.

(** ** Timers and counters *)

(** What rendering does to the ticker and the stage. *)
Lemma commit_timers c :
  mounted c = true ->
  ticker (commit c)
  = (if isLoading (state c)
     then Some (processingTime (state c), currentStage (state c))
     else None)
  /\ currentStage (state (commit c))
     = (if isLoading (state c) then currentStage (state c) else 0)
  /\ processingTime (state (commit c))
     = (if isLoading (state c) then processingTime (state c) else 0)
  /\ (isLoading (state c) = false -> truthy (jobId (state (commit c))) = false).
Proof.
  unfold commit, jobId_effect, ticker_effect, set.
  destruct c as [[] m t ps n psub ppoll ph snt]; cbn. intros ->.
  repeat (break_inner; cbn in *); repeat split; congruence.
Qed.

Section Invariants.

Variable parse_number : JSValue -> float.

Local Abbreviation poll_resume := (Page.poll_resume parse_number).
Local Abbreviation step := (Page.step parse_number).
Local Abbreviation run := (Page.run parse_number).
Local Abbreviation reachable := (Page.reachable parse_number).

(** The callbacks leave the ticker to the effect, and none of them moves
    the stage out of range. *)
Lemma handleSubmit_timers c :
  mounted (handleSubmit c) = mounted c
  /\ ticker (handleSubmit c) = ticker c
  /\ (currentStage (state c) <= 6 -> currentStage (state (handleSubmit c)) <= 6).
Proof.
  unfold handleSubmit, set.
  destruct c as [s m t ps n psub ppoll ph snt]; cbn.
  repeat (break_inner; cbn); repeat split; auto; lia.
Qed.

Lemma handleSubmit_resume_timers r c :
  mounted (handleSubmit_resume r c) = mounted c
  /\ ticker (handleSubmit_resume r c) = ticker c
  /\ currentStage (state (handleSubmit_resume r c)) = currentStage (state c).
Proof.
  run_callback.
  destruct c as [s m t ps n psub ppoll ph snt]; cbn.
  repeat (break_inner; cbn); repeat split.
Qed.

Lemma stage_of_progress_bound p : stage_of_progress p <= 6.
Proof. unfold stage_of_progress. repeat break_inner; lia. Qed.

Lemma poll_resume_timers id r c :
  mounted (poll_resume id r c) = mounted c
  /\ ticker (poll_resume id r c) = ticker c
  /\ (currentStage (state c) <= 6 -> currentStage (state (poll_resume id r c)) <= 6).
Proof.
  pose proof stage_of_progress_bound as B.
  run_callback.
  destruct c as [s m t ps n psub ppoll ph snt]; cbn.
  repeat (break_inner; cbn); repeat split; auto.
Qed.

Lemma fetchServerStatus_resume_timers r c :
  mounted (fetchServerStatus_resume r c) = mounted c
  /\ ticker (fetchServerStatus_resume r c) = ticker c
  /\ currentStage (state (fetchServerStatus_resume r c)) = currentStage (state c).
Proof.
  run_callback.
  destruct c as [s m t ps n psub ppoll ph snt]; cbn.
  repeat (break_inner; cbn); repeat split.
Qed.

Lemma ticker_callback_timers pt c :
  mounted (ticker_callback pt (currentStage (state c)) c) = mounted c
  /\ ticker (ticker_callback pt (currentStage (state c)) c) = ticker c
  /\ (currentStage (state c) <= 6 ->
      currentStage (state (ticker_callback pt (currentStage (state c)) c)) <= 6).
Proof.
  unfold ticker_callback, thoughtStages_length.
  destruct ((0 <? pt)%nat && (pt mod 12 =? 0)%nat
            && (currentStage (state c) <? 7 - 1)%nat) eqn:E.
  - apply andb_true_iff in E as [_ E]. apply Nat.ltb_lt in E.
    unfold set. destruct c as [s m t ps n psub ppoll ph snt].
    cbn [state mounted ticker with_state] in *.
    destruct m; cbn; repeat split; lia.
  - clear E. unfold set. destruct c as [s m t ps n psub ppoll ph snt].
    cbn [state mounted ticker with_state] in *.
    destruct m; cbn; repeat split; lia.
Qed.

(** The invariant of the timers: the stage is a valid index, and the
    ticker is the one the last render installed (none after teardown). *)
Definition well_timed (c : Client) : Prop :=
  currentStage (state c) <= 6
  /\ ticker c
     = if mounted c && isLoading (state c)
       then Some (processingTime (state c), currentStage (state c))
       else None.

Lemma well_timed_commit x :
  currentStage (state x) <= 6 ->
  (mounted x = false -> ticker x = None) ->
  well_timed (commit x).
Proof.
  intros Hs Hu. unfold well_timed.
  destruct (mounted x) eqn:Hm.
  - destruct (commit_timers x Hm) as (Ht & Hc & Hp & _).
    destruct (commit_frame x) as (-> & _).
    destruct (commit_state_frame x) as (-> & _).
    rewrite Hm, Ht, Hc, Hp. cbn [andb].
    destruct (isLoading (state x)); split; auto; lia.
  - unfold commit. rewrite Hm. split; [exact Hs|].
    rewrite Hm. cbn [andb]. exact (Hu eq_refl).
Qed.

Lemma well_timed_step c e c' :
  well_timed c -> step c e = Some c' -> well_timed c'.
Proof.
  intros (Hs & Ht) Hstep.
  assert (Hu : mounted c = false -> ticker c = None).
  { intros Hm. rewrite Ht, Hm. reflexivity. }
  destruct e as [value| |k r| |id|k r|r| ]; cbn [Page.step] in Hstep.
  - destruct (form_visible c); [|discriminate].
    inversion Hstep; subst c'; clear Hstep.
    assert (F : mounted (set (with_topic value) c) = mounted c
                /\ ticker (set (with_topic value) c) = ticker c
                /\ currentStage (state (set (with_topic value) c))
                   = currentStage (state c)).
    { unfold set. destruct c as [s m t ps n psub ppoll ph snt]; cbn.
      destruct m; repeat split. }
    destruct F as (Hm' & Ht' & Hs').
    apply well_timed_commit; [rewrite Hs'; exact Hs|]. rewrite Hm', Ht'. exact Hu.
  - destruct (form_visible c); [|discriminate].
    inversion Hstep; subst c'; clear Hstep.
    destruct (handleSubmit_timers c) as (Hm' & Ht' & Hs').
    apply well_timed_commit; [auto|]. rewrite Hm', Ht'. exact Hu.
  - destruct (nth_error (pending_submits c) k); [|discriminate].
    inversion Hstep; subst c'; clear Hstep.
    destruct (handleSubmit_resume_timers r
                (with_pending_submits (remove_nth k (pending_submits c)) c))
      as (Hm' & Ht' & Hs').
    apply well_timed_commit; [rewrite Hs'; exact Hs|]. rewrite Hm', Ht'. exact Hu.
  - destruct (ticker c) as [[pt cs]|] eqn:Etick; [|discriminate].
    inversion Hstep; subst c'; clear Hstep.
    assert (Hcs : cs = currentStage (state c)).
    { rewrite Ht in Etick.
      destruct (mounted c && isLoading (state c)); congruence. }
    subst cs.
    destruct (ticker_callback_timers pt c) as (Hm' & Ht' & Hs').
    apply well_timed_commit; [auto|]. rewrite Hm', Ht', Etick. exact Hu.
  - destruct (find_poller id (pollers c)) as [j|]; [|discriminate].
    inversion Hstep; subst c'; clear Hstep.
    apply well_timed_commit; [exact Hs|exact Hu].
  - destruct (nth_error (pending_polls c) k) as [[id j]|]; [|discriminate].
    inversion Hstep; subst c'; clear Hstep.
    destruct (poll_resume_timers id r
                (with_pending_polls (remove_nth k (pending_polls c)) c))
      as (Hm' & Ht' & Hs').
    apply well_timed_commit; [exact (Hs' Hs)|]. rewrite Hm', Ht'. exact Hu.
  - destruct (pending_health c); [|discriminate].
    inversion Hstep; subst c'; clear Hstep.
    destruct (fetchServerStatus_resume_timers r (with_pending_health false c))
      as (Hm' & Ht' & Hs').
    apply well_timed_commit; [rewrite Hs'; exact Hs|]. rewrite Hm', Ht'. exact Hu.
  - destruct (mounted c); [|discriminate].
    inversion Hstep; subst c'; clear Hstep.
    unfold well_timed, unmount. cbn. auto.
Qed.

Lemma reachable_well_timed c : reachable c -> well_timed c.
Proof.
  induction 1 as [|c e c' _ IH Hstep].
  - unfold well_timed. cbn. split; [lia|reflexivity].
  - exact (well_timed_step _ IH Hstep).
Qed.

(** X15: in every state the component can reach, the displayed stage is a
    valid index into the seven [thoughtStages]: neither the local ticker nor
    a poll response moves it past the last stage. *)
Theorem X15_stage_is_a_valid_index c :
  reachable c -> currentStage (state c) < thoughtStages_length.
Proof.
  intros R. destruct (reachable_well_timed R) as (Hs & _).
  unfold thoughtStages_length. lia.
Qed.

(** X16: in every state the component can reach, the one-second ticker is
    running exactly when the component is mounted and loading, and its
    callback has closed over the current [processingTime] and
    [currentStage]; and whenever a mounted component is not loading, the
    stage and the processing time are back at 0 and no job id is kept. *)
Theorem X16_ticker_runs_while_loading c :
  reachable c ->
  ticker c
  = (if mounted c && isLoading (state c)
     then Some (processingTime (state c), currentStage (state c))
     else None)
  /\ (mounted c = true -> isLoading (state c) = false ->
      currentStage (state c) = 0
      /\ processingTime (state c) = 0
      /\ truthy (jobId (state c)) = false).
Proof.
  intros R. destruct (reachable_well_timed R) as (_ & Ht).
  split; [exact Ht|]. intros Hm Hl.
  pose proof (@reachable_rendered parse_number c R) as Hc.
  destruct (commit_timers c Hm) as (_ & Hcs & Hpt & Hj).
  rewrite Hc, Hl in *. auto.
Qed.

(** ** One job per component *)

Lemma handleSubmit_resume_pollers r c :
  List.length (pollers (handleSubmit_resume r c)) <= S (List.length (pollers c)).
Proof.
  run_callback.
  destruct c as [s m t ps n psub ppoll ph snt]; cbn.
  repeat (break_inner; cbn); rewrite ?length_app; cbn; lia.
Qed.

Lemma poll_resume_pollers id r c :
  List.length (pollers (poll_resume id r c)) <= List.length (pollers c).
Proof.
  run_callback.
  destruct c as [s m t ps n psub ppoll ph snt]; cbn.
  repeat (break_inner; cbn); auto using filter_length_le.
Qed.

(** Callbacks that only touch the React state. *)
Lemma ticker_callback_frame pt cs c :
  pollers (ticker_callback pt cs c) = pollers c
  /\ pending_submits (ticker_callback pt cs c) = pending_submits c
  /\ mounted (ticker_callback pt cs c) = mounted c
  /\ error (state (ticker_callback pt cs c)) = error (state c)
  /\ report (state (ticker_callback pt cs c)) = report (state c).
Proof.
  unfold ticker_callback, set.
  destruct ((0 <? pt)%nat && (pt mod 12 =? 0)%nat
            && (cs <? thoughtStages_length - 1)%nat);
    destruct c as [s m t ps n psub ppoll ph snt]; cbn;
    destruct m; repeat split.
Qed.

Lemma fetchServerStatus_resume_frame r c :
  pollers (fetchServerStatus_resume r c) = pollers c
  /\ pending_submits (fetchServerStatus_resume r c) = pending_submits c
  /\ mounted (fetchServerStatus_resume r c) = mounted c
  /\ error (state (fetchServerStatus_resume r c)) = error (state c)
  /\ report (state (fetchServerStatus_resume r c)) = report (state c).
Proof.
  run_callback.
  destruct c as [s m t ps n psub ppoll ph snt]; cbn.
  repeat (break_inner; cbn); repeat split.
Qed.

Lemma nth_error_nonempty {A} (l : list A) k x : nth_error l k = Some x -> l <> [].
Proof. destruct l, k; cbn; congruence. Qed.

Lemma remove_nth_single {A} (l : list A) k x :
  nth_error l k = Some x -> List.length l <= 1 -> remove_nth k l = [].
Proof.
  destruct l as [|a [|b l]]; cbn; intros H L; [destruct k; discriminate| |lia].
  destruct k as [|[|k]]; cbn in H |- *; congruence.
Qed.

Definition one_job (c : Client) : Prop :=
  List.length (pollers c) + List.length (pending_submits c) <= 1.

Lemma reachable_one_job c : reachable c -> one_job c.
Proof.
  unfold one_job.
  induction 1 as [|c e c' R IH Hstep]; [cbn; lia|].
  destruct (@reachable_single_flight parse_number c R) as (Hlen & Hbusy & Hform).
  destruct e as [value| |k r| |id|k r|r| ]; cbn [Page.step] in Hstep.
  - destruct (form_visible c); [|discriminate].
    inversion Hstep; subst c'; clear Hstep.
    destruct (commit_frame (set (with_topic value) c)) as (_ & -> & _ & -> & _).
    unfold set. destruct (mounted c); exact IH.
  - destruct (form_visible c) eqn:Hv; [|discriminate].
    inversion Hstep; subst c'; clear Hstep.
    destruct (commit_frame (handleSubmit c)) as (_ & -> & _ & -> & _).
    destruct (Hform eq_refl) as (Hs & Hp & _).
    destruct (handleSubmit_frame c (form_visible_mounted _ Hv))
      as (_ & Hp' & _ & [Hsame | (Hs' & _)]).
    + rewrite Hsame. exact IH.
    + rewrite Hp', Hs', Hp, Hs. cbn. lia.
  - destruct (nth_error (pending_submits c) k) as [tp|] eqn:Hk; [|discriminate].
    inversion Hstep; subst c'; clear Hstep.
    pose proof (@nth_error_nonempty _ _ _ _ Hk) as Hne.
    rewrite (@remove_nth_single _ _ _ _ Hk Hlen).
    set (c0 := with_pending_submits [] c).
    destruct (commit_frame (handleSubmit_resume r c0)) as (_ & -> & _ & -> & _).
    destruct (handleSubmit_resume_frame r c0) as (_ & -> & _).
    pose proof (handleSubmit_resume_pollers r c0) as Hp.
    cbn [c0 pollers pending_submits with_pending_submits] in *.
    destruct (pending_submits c); [congruence|]. cbn in IH |- *. lia.
  - destruct (ticker c) as [[pt cs]|]; [|discriminate].
    inversion Hstep; subst c'; clear Hstep.
    destruct (commit_frame (ticker_callback pt cs c)) as (_ & -> & _ & -> & _).
    destruct (ticker_callback_frame pt cs c) as (-> & -> & _). exact IH.
  - destruct (find_poller id (pollers c)) as [j|]; [|discriminate].
    inversion Hstep; subst c'; clear Hstep.
    destruct (commit_frame (poll_fire id j c)) as (_ & -> & _ & -> & _).
    exact IH.
  - destruct (nth_error (pending_polls c) k) as [[id j]|]; [|discriminate].
    inversion Hstep; subst c'; clear Hstep.
    set (c0 := with_pending_polls (remove_nth k (pending_polls c)) c).
    destruct (commit_frame (poll_resume id r c0)) as (_ & -> & _ & -> & _).
    destruct (poll_resume_frame parse_number id r c0) as (_ & -> & _).
    pose proof (poll_resume_pollers id r c0) as Hp.
    cbn [c0 pollers pending_submits with_pending_polls] in *. lia.
  - destruct (pending_health c); [|discriminate].
    inversion Hstep; subst c'; clear Hstep.
    destruct (commit_frame (fetchServerStatus_resume r (with_pending_health false c)))
      as (_ & -> & _ & -> & _).
    destruct (fetchServerStatus_resume_frame r (with_pending_health false c))
      as (-> & -> & _).
    exact IH.
  - destruct (mounted c); [|discriminate].
    inversion Hstep; subst c'; clear Hstep. exact IH.
Qed.

(** X17: the component tracks one job at a time. In every state it can
    reach there is at most one live polling interval, and never one together
    with a pending submission. *)
Theorem X17_one_job_at_a_time c :
  reachable c ->
  List.length (pollers c) <= 1
  /\ (pending_submits c <> [] -> pollers c = []).
Proof.
  intros R. pose proof (reachable_one_job R) as H. unfold one_job in H.
  split; [lia|]. intros Hne.
  destruct (pending_submits c); [congruence|].
  destruct (pollers c); [reflexivity|]. cbn in H. lia.
Qed.

(** ** A job that has ended *)

(** The job has ended for the user: an error or a report is on screen. *)
Definition ended (c : Client) : bool :=
  error_truthy (error (state c)) || truthy (report (state c)).

Lemma ended_hides_form c : ended c = true -> form_visible c = false.
Proof.
  unfold ended, form_visible.
  destruct (error_truthy (error (state c))), (truthy (report (state c)));
    cbn; intros H; try discriminate; now rewrite ?andb_false_r.
Qed.

Lemma ended_commit c : ended (commit c) = ended c.
Proof.
  unfold ended. destruct (commit_state_frame c) as (_ & -> & -> & _). reflexivity.
Qed.

Lemma handleSubmit_resets c :
  mounted c = true ->
  handleSubmit c = c
  \/ (error (state (handleSubmit c)) = ENull /\ report (state (handleSubmit c)) = JNull).
Proof.
  unfold handleSubmit, set.
  destruct c as [s m t ps n psub ppoll ph snt]; cbn. intros ->.
  destruct (trim (topic s)); cbn; auto.
Qed.

Lemma handleSubmit_resume_unmounted r c :
  mounted c = false -> state (handleSubmit_resume r c) = state c.
Proof.
  run_callback.
  destruct c as [s m t ps n psub ppoll ph snt]; cbn. intros ->.
  repeat (break_inner; cbn); reflexivity.
Qed.

Lemma poll_resume_keeps_ended id r c :
  ended c = true -> ended (poll_resume id r c) = true.
Proof.
  assert (T := truthy_or_else).
  unfold ended. run_callback.
  destruct c as [s m t ps n psub ppoll ph snt]; cbn.
  repeat (break_inner; cbn); intros H; try exact H;
    repeat match goal with
           | H : _ && _ = true |- _ => apply andb_true_iff in H; destruct H
           end;
    try rewrite T by (unfold lit; cbn; discriminate);
    repeat match goal with
           | H : truthy _ = true |- _ => rewrite H
           end;
    cbn; auto using orb_true_r.
Qed.

(** While a submission is pending in a mounted component, the error and
    the report are the [null]s [handleSubmit] put there. *)
Definition fresh_submission (c : Client) : Prop :=
  mounted c = true -> pending_submits c <> [] ->
  error (state c) = ENull /\ report (state c) = JNull.

Lemma reachable_fresh_submission c : reachable c -> fresh_submission c.
Proof.
  unfold fresh_submission.
  induction 1 as [|c e c' R IH Hstep]; [cbn; congruence|].
  destruct (@reachable_single_flight parse_number c R) as (Hlen & Hbusy & Hform).
  destruct e as [value| |k r| |id|k r|r| ]; cbn [Page.step] in Hstep.
  - destruct (form_visible c) eqn:Hv; [|discriminate].
    inversion Hstep; subst c'; clear Hstep.
    destruct (commit_frame (set (with_topic value) c)) as (_ & _ & _ & -> & _).
    destruct (Hform eq_refl) as (Hs & _).
    unfold set. destruct (mounted c); cbn; congruence.
  - destruct (form_visible c) eqn:Hv; [|discriminate].
    inversion Hstep; subst c'; clear Hstep.
    destruct (commit_frame (handleSubmit c)) as (_ & _ & _ & -> & _).
    destruct (commit_state_frame (handleSubmit c)) as (_ & -> & -> & _).
    destruct (Hform eq_refl) as (Hs & _).
    destruct (handleSubmit_resets c (form_visible_mounted _ Hv)) as [Hsame | Hreset].
    + rewrite Hsame. congruence.
    + intros _ _. exact Hreset.
  - destruct (nth_error (pending_submits c) k) as [tp|] eqn:Hk; [|discriminate].
    inversion Hstep; subst c'; clear Hstep.
    rewrite (@remove_nth_single _ _ _ _ Hk Hlen).
    set (c0 := with_pending_submits [] c).
    destruct (commit_frame (handleSubmit_resume r c0)) as (_ & _ & _ & -> & _).
    destruct (handleSubmit_resume_frame r c0) as (_ & -> & _).
    cbn. congruence.
  - destruct (ticker c) as [[pt cs]|]; [|discriminate].
    inversion Hstep; subst c'; clear Hstep.
    destruct (commit_frame (ticker_callback pt cs c)) as (-> & _ & _ & -> & _).
    destruct (commit_state_frame (ticker_callback pt cs c)) as (_ & -> & -> & _).
    destruct (ticker_callback_frame pt cs c) as (_ & -> & -> & -> & ->). exact IH.
  - destruct (find_poller id (pollers c)) as [j|]; [|discriminate].
    inversion Hstep; subst c'; clear Hstep.
    destruct (commit_frame (poll_fire id j c)) as (-> & _ & _ & -> & _).
    destruct (commit_state_frame (poll_fire id j c)) as (_ & -> & -> & _).
    exact IH.
  - destruct (nth_error (pending_polls c) k) as [[id j]|] eqn:Hk; [|discriminate].
    inversion Hstep; subst c'; clear Hstep.
    set (c0 := with_pending_polls (remove_nth k (pending_polls c)) c).
    destruct (commit_frame (poll_resume id r c0)) as (-> & _ & _ & -> & _).
    destruct (poll_resume_frame parse_number id r c0) as (-> & -> & _).
    cbn [c0 mounted pending_submits with_pending_polls].
    intros Hm Hne. destruct (Hbusy Hne Hm) as (_ & _ & Hpp).
    rewrite Hpp in Hk. destruct k; discriminate.
  - destruct (pending_health c); [|discriminate].
    inversion Hstep; subst c'; clear Hstep.
    set (c0 := with_pending_health false c).
    destruct (commit_frame (fetchServerStatus_resume r c0)) as (-> & _ & _ & -> & _).
    destruct (commit_state_frame (fetchServerStatus_resume r c0)) as (_ & -> & -> & _).
    destruct (fetchServerStatus_resume_frame r c0) as (_ & -> & -> & -> & ->).
    exact IH.
  - destruct (mounted c); [|discriminate].
    inversion Hstep; subst c'; clear Hstep.
    cbn. discriminate.
Qed.

Lemma ended_step c e c' :
  reachable c -> ended c = true -> step c e = Some c' -> ended c' = true.
Proof.
  intros R He Hstep.
  pose proof (ended_hides_form _ He) as Hv.
  pose proof (reachable_fresh_submission R) as Hfresh.
  destruct e as [value| |k r| |id|k r|r| ]; cbn [Page.step] in Hstep.
  - rewrite Hv in Hstep. discriminate.
  - rewrite Hv in Hstep. discriminate.
  - destruct (nth_error (pending_submits c) k) as [tp|] eqn:Hk; [|discriminate].
    inversion Hstep; subst c'; clear Hstep.
    rewrite ended_commit.
    set (c0 := with_pending_submits (remove_nth k (pending_submits c)) c).
    destruct (mounted c) eqn:Hm.
    + destruct (Hfresh Hm (@nth_error_nonempty _ _ _ _ Hk)) as (E1 & E2).
      unfold ended in He. rewrite E1, E2 in He. discriminate.
    + unfold ended. rewrite (handleSubmit_resume_unmounted r c0 Hm). exact He.
  - destruct (ticker c) as [[pt cs]|]; [|discriminate].
    inversion Hstep; subst c'; clear Hstep.
    rewrite ended_commit. unfold ended.
    destruct (ticker_callback_frame pt cs c) as (_ & _ & _ & -> & ->). exact He.
  - destruct (find_poller id (pollers c)) as [j|]; [|discriminate].
    inversion Hstep; subst c'; clear Hstep.
    rewrite ended_commit. exact He.
  - destruct (nth_error (pending_polls c) k) as [[id j]|]; [|discriminate].
    inversion Hstep; subst c'; clear Hstep.
    rewrite ended_commit. apply poll_resume_keeps_ended. exact He.
  - destruct (pending_health c); [|discriminate].
    inversion Hstep; subst c'; clear Hstep.
    rewrite ended_commit. unfold ended.
    destruct (fetchServerStatus_resume_frame r (with_pending_health false c))
      as (_ & _ & _ & -> & ->).
    exact He.
  - destruct (mounted c); [|discriminate].
    inversion Hstep; subst c'; clear Hstep. exact He.
Qed.

(** X18: ending is final. Once a reachable state shows an error or a
    report, every later state does too, whatever happens next: the form is
    never rendered again, so this component instance submits no further
    job. *)
Theorem X18_ended_job_is_final es : forall c c',
  reachable c ->
  ended c = true ->
  run c es = Some c' ->
  ended c' = true
  /\ form_visible c' = false
  /\ step c' Submit = None.
Proof.
  induction es as [|e es IH]; cbn [Page.run]; intros c c' R He Hrun.
  - inversion Hrun; subst c'.
    pose proof (ended_hides_form _ He) as Hv.
    repeat split; auto. cbn [Page.step]. now rewrite Hv.
  - destruct (step c e) as [c1|] eqn:Hstep; [|discriminate].
    exact (IH c1 c' (reachable_step _ R Hstep) (ended_step _ R He Hstep) Hrun).
Qed.

(** ** The progress bar *)

(** [Math.min(a, b)]: [NaN] if either is, else the smaller, [-0] counting
    as smaller than [+0]. *)
Definition Math_min (a b : float) : float :=
  if PrimFloat.is_nan a || PrimFloat.is_nan b then PrimFloat.nan
  else if (b <? a)%float then b
  else if (a <? b)%float then a
  else if PrimFloat.get_sign a then a else b.

(** The number a (small) natural number is. *)
Fixpoint number_of_nat (n : nat) : float :=
  match n with
  | O => 0%float
  | S k => (number_of_nat k + 1)%float
  end.

(** [Math.min(100, ((currentStage + 1) / thoughtStages.length) * 100)] *)
Definition progressPercentage (currentStage : nat) : float :=
  Math_min 100
    ((number_of_nat currentStage + 1) / number_of_nat thoughtStages_length * 100)%float.

(** X19: in every state the component can reach, the width of the
    progress bar is above 0 and at most 100 per cent, it is exactly 100 at
    the last stage, and the cap at 100 never has to act: the value is the
    plain quotient. *)
Theorem X19_progress_percentage_in_range c :
  reachable c ->
  (0 <? progressPercentage (currentStage (state c)))%float = true
  /\ (progressPercentage (currentStage (state c)) <=? 100)%float = true
  /\ (currentStage (state c) = 6 ->
      progressPercentage (currentStage (state c)) = 100%float)
  /\ progressPercentage (currentStage (state c))
     = ((number_of_nat (currentStage (state c)) + 1) / 7 * 100)%float.
Proof.
  intros R. destruct (reachable_well_timed R) as (Hs & _).
  remember (currentStage (state c)) as n eqn:En. clear En R.
  do 7 (destruct n as [|n];
        [vm_compute; repeat split; intros; try discriminate; reflexivity|]).
  lia.
Qed.

(** ** The health check on mount *)

(** X20: the health check made on mount looks only at the body of the
    answer, not at its status: any answer whose body parses (and is not
    [null]) stores the body's [status], or "OK" when that is absent or falsy,
    as the server status; a fetch that throws or a body that does not parse
    sets the status line to "Server is unavailable". Either way it sends
    nothing and leaves loading, the error, the report and the topic alone. *)
Theorem X20_mount_health_check c r :
  mounted c = true ->
  sent (fetchServerStatus_resume r c) = sent c
  /\ isLoading (state (fetchServerStatus_resume r c)) = isLoading (state c)
  /\ error (state (fetchServerStatus_resume r c)) = error (state c)
  /\ report (state (fetchServerStatus_resume r c)) = report (state c)
  /\ topic (state (fetchServerStatus_resume r c)) = topic (state c)
  /\ (forall res data,
        r = inr res -> fjson res = inr data ->
        data <> JNull -> data <> JUndefined ->
        serverStatus (state (fetchServerStatus_resume r c))
        = or_else (own_prop data (lit "status")) (JStr (lit "OK"))
        /\ status (state (fetchServerStatus_resume r c)) = status (state c))
  /\ (forall e,
        r = inl e \/ (exists res, r = inr res /\ fjson res = inl e) ->
        status (state (fetchServerStatus_resume r c)) = lit "Server is unavailable"
        /\ serverStatus (state (fetchServerStatus_resume r c))
           = serverStatus (state c)).
Proof.
  intros Hm. run_callback.
  destruct c as [s m t ps n psub ppoll ph snt]; cbn in Hm |- *. subst m.
  repeat split.
  1-5: repeat (break_inner; cbn); reflexivity.
  - subst r. rewrite H0. destruct data; cbn; congruence.
  - subst r. rewrite H0. destruct data; cbn; congruence.
  - destruct H as [-> | (res & -> & ->)]; reflexivity.
  - destruct H as [-> | (res & -> & ->)]; reflexivity.
Qed.

(** ** A whole job *)

Section WholeJob.

(** The fields of the component when the form is submitted. *)
Variables (st tp : jsstring) (er : ErrorVal) (rp : JSValue) (cs pt : nat)
          (ji ss : JSValue) (t : option (nat * nat)) (n : nat) (ph : bool)
          (snt : list Request).











End WholeJob.



End Invariants.

(** ** Concrete runs *)

Lemma after_reachable es c :
  run no_parse init es = Some c -> reachable no_parse c.
Proof. exact (@run_reachable no_parse es init c (reachable_init no_parse)). Qed.



Definition job_failed : FetchResponse :=
  {| fstatus := 200;
     fjson := inr (JObj [(lit "status", JStr (lit "failed"));
                         (lit "progress", JNum 0.4);
                         (lit "error", JStr (lit "search quota exceeded"))]) |}.

Definition job_lost : FetchResponse :=
  {| fstatus := 404;
     fjson := inr (JObj [(lit "detail", JStr (lit "Job not found"))]) |}.


Lemma X13_poll_failure_response_witness :
  error (state (poll_resume no_parse 0 (inr job_lost) awaiting_report))
  = EValue (or_else (JStr (lit "Job not found"))
                    (JStr (lit "Failed to check job status")))
  /\ isLoading (state (poll_resume no_parse 0 (inr job_lost) awaiting_report)) = false
  /\ report (state (poll_resume no_parse 0 (inr job_lost) awaiting_report))
     = report (state awaiting_report).
Proof.
  exact (proj1 (proj2 (proj2
           (@X13_poll_failure_response no_parse awaiting_report 0 job_lost
              eq_refl eq_refl)))
           _ (JStr (lit "Job not found")) eq_refl eq_refl).
Defined.

Lemma X14_poll_that_ends_loading_clears_interval_witness :
  find_poller 0 (pollers (poll_resume no_parse 0 (inr job_failed) awaiting_report))
  = None.
Proof.
  refine (@X14_poll_that_ends_loading_clears_interval no_parse awaiting_report 0
            (inr job_failed) eq_refl eq_refl _).
  vm_compute. reflexivity.
Defined.

Lemma X15_stage_is_a_valid_index_witness :
  currentStage (state reported_half) < thoughtStages_length.
Proof.
  refine (@X15_stage_is_a_valid_index no_parse reported_half _).
  apply (@after_reachable (start_polling ++ poll_round (inr (progress_report 0.5)))).
  vm_compute. reflexivity.
Defined.

Lemma X16_ticker_runs_while_loading_witness :
  ticker submitting
  = (if mounted submitting && isLoading (state submitting)
     then Some (processingTime (state submitting), currentStage (state submitting))
     else None).
Proof.
  refine (proj1 (@X16_ticker_runs_while_loading no_parse submitting _)).
  apply (@after_reachable [Change (lit "solar sails"); Submit]).
  vm_compute. reflexivity.
Defined.

Lemma X17_one_job_at_a_time_witness :
  List.length (pollers awaiting_report) <= 1.
Proof.
  refine (proj1 (@X17_one_job_at_a_time no_parse awaiting_report _)).
  apply (@after_reachable (start_polling ++ [PollFire 0])).
  vm_compute. reflexivity.
Defined.

(** The job has failed and the error is on screen. *)
Definition failed_job : Client :=
  Eval vm_compute in after (start_polling ++ poll_round (inr job_failed)).

Definition failed_job_later : Client :=
  Eval vm_compute in
    after (start_polling ++ poll_round (inr job_failed)
           ++ [HealthSettled (inl (ErrorObject (lit "Failed to fetch")))]).

Lemma X18_ended_job_is_final_witness :
  ended failed_job_later = true
  /\ form_visible failed_job_later = false
  /\ step no_parse failed_job_later Submit = None.
Proof.
  refine (@X18_ended_job_is_final no_parse
            [HealthSettled (inl (ErrorObject (lit "Failed to fetch")))]
            failed_job failed_job_later _ _ _).
  - apply (@after_reachable (start_polling ++ poll_round (inr job_failed))).
    vm_compute. reflexivity.
  - vm_compute. reflexivity.
  - vm_compute. reflexivity.
Defined.

Lemma X19_progress_percentage_in_range_witness :
  (0 <? progressPercentage (currentStage (state reported_half)))%float = true.
Proof.
  refine (proj1 (@X19_progress_percentage_in_range no_parse reported_half _)).
  apply (@after_reachable (start_polling ++ poll_round (inr (progress_report 0.5)))).
  vm_compute. reflexivity.
Defined.

Definition health_down : FetchResponse :=
  {| fstatus := 503;
     fjson := inr (JObj [(lit "status", JStr (lit "degraded"))]) |}.

Lemma X20_mount_health_check_witness :
  serverStatus (state (fetchServerStatus_resume (inr health_down) init))
  = JStr (lit "degraded")
  /\ status (state (fetchServerStatus_resume (inr health_down) init))
     = status (state init).
Proof.
  refine (proj1 (proj2 (proj2 (proj2 (proj2 (proj2
            (@X20_mount_health_check init (inr health_down) eq_refl))))))
            health_down _ eq_refl eq_refl _ _);
    discriminate.
Defined.



End PageCoverage.
